(** * Client questionnaire tool: the transcript and the session

    A shallow embedding of [client_questionnaire_tool.py].  The Python
    classes become modules of the same name; the widget tree that
    [QuestionnaireFrame.submit] reads becomes a record tree; the Tk main
    loop becomes a function over the list of events the human produces.

    What the external libraries do is taken as follows.
    - A [ttk.Label] gives back under [cget] the text it was created with.
    - A [ttk.Checkbutton] starts out not selected and every click flips it.
    - A [tk.Text] read from 1.0 to end-1c gives its current content; it
      starts out empty.
    - The pydantic method [dict] of a QuestionSchema gives a dict holding
      both of its fields. *)

From Stdlib Require Import Ascii String.
From stdpp Require Import base option list strings gmap.

#[local] Set Warnings "-clear-no-such-hyp".

Local Open Scope string_scope.
Local Open Scope list_scope.

(** ** Strings *)

(** The newline character, the double quote, and the separator-join of
    Python's [str.join]. *)
Definition nl : string := String (ascii_of_nat 10) EmptyString.
Definition dquote : string := String (ascii_of_nat 34) EmptyString.

Definition join (sep : string) (lines : list string) : string :=
  String.concat sep lines.

(** Truth value of a Python string: every string but the empty one. *)
Definition truthy (s : string) : bool :=
  match s with
  | EmptyString => false
  | String _ _ => true
  end.

(** ** Errors *)

Inductive py_error : Type :=
  | KeyError (key : string)
  | ValidationError (field : string).

Inductive result (A : Type) : Type :=
  | Ok (a : A)
  | Raise (e : py_error).
Arguments Ok {A} a.
Arguments Raise {A} e.

Definition bind {A B : Type} (m : result A) (k : A → result B) : result B :=
  match m with
  | Ok a => k a
  | Raise e => Raise e
  end.

Notation "x ←! m ; k" := (bind m (λ x, k))
  (at level 100, m at next level, k at level 200, right associativity).

(** ** Question records *)

(** A question as the frames receive it: a dict that may hold the keys
    question and options.  An entry that is there has the type the schema
    gives it. *)
Record question_data : Type := {
  qd_question : option string;
  qd_options : option (list string);
}.

(** [d[key]] on the question entry, [d.get(key, [])] on the options. *)
Definition getitem_question (d : question_data) : result string :=
  match qd_question d with
  | Some text => Ok text
  | None => Raise (KeyError "question")
  end.

Definition get_options (d : question_data) (dflt : list string) : list string :=
  default dflt (qd_options d).

Module QuestionSchema.

Record t : Type := {
  question : string;
  options : list string;
}.

(** Construction from raw fields: question is required, options comes
    from [default_factory=list]. *)
Definition validate (raw : question_data) : result t :=
  match qd_question raw with
  | None => Raise (ValidationError "question")
  | Some q =>
      Ok {| question := q;
            options := match qd_options raw with
                       | Some l => l
                       | None => []
                       end |}
  end.

Definition dict (q : t) : question_data :=
  {| qd_question := Some (question q); qd_options := Some (options q) |}.

End QuestionSchema.

(** ** Widgets *)

Module OptionFrame.

(** [selected] is the state of the frame's check button. *)
Record t : Type := {
  option : string;
  selected : bool;
}.

Definition create (option_text : string) : t :=
  {| option := option_text; selected := false |}.

Definition click (f : t) : t :=
  {| option := option f; selected := negb (selected f) |}.

End OptionFrame.

Module QuestionFrame.

(** [question_label] is the label's text, [custom_option] the content of
    the text box under the options. *)
Record t : Type := {
  question_label : string;
  option_frames : list OptionFrame.t;
  custom_option : string;
}.

Definition create_widgets (question_data : question_data) : result t :=
  text ←! getitem_question question_data;
  let options := get_options question_data [] in
  let option_frames :=
    foldl (λ frames option, frames ++ [OptionFrame.create option]) [] options in
  Ok {| question_label := text;
        option_frames := option_frames;
        custom_option := EmptyString |}.

End QuestionFrame.

Module QuestionnaireFrame.

(** [comment] is the content of the comment frame's text box. *)
Record t : Type := {
  title : string;
  author : string;
  introduction : string;
  question_frames : list QuestionFrame.t;
  comment : string;
}.

Definition create_widgets (title author introduction : string)
    (questions : list question_data) : result t :=
  question_frames ←!
    foldl (λ acc question_data,
             frames ←! acc;
             question_frame ←! QuestionFrame.create_widgets question_data;
             Ok (frames ++ [question_frame]))
          (Ok []) questions;
  Ok {| title := title;
        author := author;
        introduction := introduction;
        question_frames := question_frames;
        comment := EmptyString |}.

Definition title_line (title : string) : string :=
  "Client answers to the questionnaire " +:+ dquote +:+ title +:+ dquote +:+ ":".

(** The lines [submit] collects before it joins them. *)
Definition client_response_lines (self : t) : list string :=
  let lines := [title_line (title self)] in
  let lines :=
    foldl (λ lines question_frame,
             let lines := lines ++ [nl +:+ QuestionFrame.question_label question_frame] in
             let lines :=
               foldl (λ lines option_frame,
                        if OptionFrame.selected option_frame
                        then lines ++ ["  * " +:+ OptionFrame.option option_frame]
                        else lines)
                     lines (QuestionFrame.option_frames question_frame) in
             let custom_option := QuestionFrame.custom_option question_frame in
             if truthy custom_option
             then lines ++ ["  + " +:+ custom_option]
             else lines)
          lines (question_frames self) in
  let comment := comment self in
  if truthy comment
  then lines ++ [nl +:+ "Client comments:" +:+ nl +:+ comment]
  else lines.

(** The string [submit] hands to the callback. *)
Definition submit (self : t) : string :=
  join nl (client_response_lines self).

End QuestionnaireFrame.

(** ** What the human does *)

(** One event of the main loop: a click on check button [o] of question
    [q], an edit that leaves [text] in the text box of question [q] or in
    the comment box, a press on the submit button, or closing the
    window. *)
Inductive event : Type :=
  | ClickOption (q o : nat)
  | EditCustomOption (q : nat) (text : string)
  | EditComment (text : string)
  | PressSubmit
  | CloseWindow.

Definition click_option (o : nat) (f : QuestionFrame.t) : QuestionFrame.t :=
  {| QuestionFrame.question_label := QuestionFrame.question_label f;
     QuestionFrame.option_frames :=
       alter OptionFrame.click o (QuestionFrame.option_frames f);
     QuestionFrame.custom_option := QuestionFrame.custom_option f |}.

Definition set_custom_option (text : string) (f : QuestionFrame.t) : QuestionFrame.t :=
  {| QuestionFrame.question_label := QuestionFrame.question_label f;
     QuestionFrame.option_frames := QuestionFrame.option_frames f;
     QuestionFrame.custom_option := text |}.

Definition with_question_frames (frames : list QuestionFrame.t)
    (qf : QuestionnaireFrame.t) : QuestionnaireFrame.t :=
  {| QuestionnaireFrame.title := QuestionnaireFrame.title qf;
     QuestionnaireFrame.author := QuestionnaireFrame.author qf;
     QuestionnaireFrame.introduction := QuestionnaireFrame.introduction qf;
     QuestionnaireFrame.question_frames := frames;
     QuestionnaireFrame.comment := QuestionnaireFrame.comment qf |}.

Definition with_comment (text : string)
    (qf : QuestionnaireFrame.t) : QuestionnaireFrame.t :=
  {| QuestionnaireFrame.title := QuestionnaireFrame.title qf;
     QuestionnaireFrame.author := QuestionnaireFrame.author qf;
     QuestionnaireFrame.introduction := QuestionnaireFrame.introduction qf;
     QuestionnaireFrame.question_frames := QuestionnaireFrame.question_frames qf;
     QuestionnaireFrame.comment := text |}.

(** The widgets after an event that is neither submit nor close.  An
    event on a widget that does not exist changes nothing. *)
Definition edit (ev : event) (qf : QuestionnaireFrame.t) : QuestionnaireFrame.t :=
  match ev with
  | ClickOption q o =>
      with_question_frames
        (alter (click_option o) q (QuestionnaireFrame.question_frames qf)) qf
  | EditCustomOption q text =>
      with_question_frames
        (alter (set_custom_option text) q (QuestionnaireFrame.question_frames qf)) qf
  | EditComment text => with_comment text qf
  | PressSubmit | CloseWindow => qf
  end.

(** How a call ends: with a value, with an exception, or not at all. *)
Inductive outcome (A : Type) : Type :=
  | Returns (a : A)
  | Raises (e : py_error)
  | Blocks.
Arguments Returns {A} a.
Arguments Raises {A} e.
Arguments Blocks {A}.

Module Questionnaire.

Record t : Type := {
  title : string;
  author : string;
  introduction : string;
  questions : list question_data;
  client_response : option string;
}.

Definition init (title author introduction : string)
    (questions : list question_data) : t :=
  {| title := title;
     author := author;
     introduction := introduction;
     questions := questions;
     client_response := None |}.

(** The callback: it stores the response; the window is destroyed, which
    is what ends [mainloop] below. *)
Definition on_client_response (self : t) (response : string) : t :=
  {| title := title self;
     author := author self;
     introduction := introduction self;
     questions := questions self;
     client_response := Some response |}.

(** The main loop over the events still to come.  It ends when the window
    is destroyed: by the callback after a submit, or by the human closing
    it.  [None]: the events ran out with the window still open. *)
Fixpoint mainloop (self : t) (qf : QuestionnaireFrame.t)
    (events : list event) : option t :=
  match events with
  | [] => None
  | PressSubmit :: _ =>
      Some (on_client_response self (QuestionnaireFrame.submit qf))
  | CloseWindow :: _ => Some self
  | ev :: events => mainloop self (edit ev qf) events
  end.

(** The object after [get_client_response] has run. *)
Definition show (self : t) (events : list event) : outcome t :=
  match QuestionnaireFrame.create_widgets
          (title self) (author self) (introduction self) (questions self) with
  | Raise e => Raises e
  | Ok qf =>
      match mainloop self qf events with
      | Some self' => Returns self'
      | None => Blocks
      end
  end.

(** What [get_client_response] returns: [None] is Python's None. *)
Definition get_client_response (self : t) (events : list event)
    : outcome (option string) :=
  match show self events with
  | Returns self' => Returns (client_response self')
  | Raises e => Raises e
  | Blocks => Blocks
  end.

End Questionnaire.

Module ClientQuestionnaireTool.

(** The keyword arguments of [_run]; [None]: the key is not there. *)
Record kwargs : Type := {
  kw_title : option string;
  kw_author : option string;
  kw_introduction : option string;
  kw_questions : option (list QuestionSchema.t);
}.

(** The Questionnaire object [_run] builds. *)
Definition questionnaire (kw : kwargs) : Questionnaire.t :=
  let title := default "No title" (kw_title kw) in
  let author := default "No author" (kw_author kw) in
  let introduction := default "No introduction" (kw_introduction kw) in
  let questions := map QuestionSchema.dict (default [] (kw_questions kw)) in
  Questionnaire.init title author introduction questions.

Definition _run (kw : kwargs) (events : list event) : outcome (option string) :=
  let q := questionnaire kw in
  let result := Questionnaire.get_client_response q events in
  result.

End ClientQuestionnaireTool.

(** ** The response as data *)

(** One question's answer: the indices of the checked options and the
    custom text, if any.  A response: one selection per question and the
    closing comment, if any. *)
Record Selection : Type := {
  checked : gset nat;
  custom_text : option string;
}.

Record Response : Type := {
  answers : list Selection;
  comment : option string;
}.

Module QuestionnaireSchema.

Record t : Type := {
  title : string;
  author : string;
  introduction : string;
  questions : list QuestionSchema.t;
}.

End QuestionnaireSchema.

(** The widgets of one question once the human has entered a selection:
    check button [j] is selected when [j] is checked, the text box holds
    the custom text. *)
Definition fill_question (sel : Selection) (f : QuestionFrame.t) : QuestionFrame.t :=
  {| QuestionFrame.question_label := QuestionFrame.question_label f;
     QuestionFrame.option_frames :=
       imap (λ j o, {| OptionFrame.option := OptionFrame.option o;
                       OptionFrame.selected := bool_decide (j ∈ checked sel) |})
            (QuestionFrame.option_frames f);
     QuestionFrame.custom_option := default EmptyString (custom_text sel) |}.

(** Question frames with no selection keep the state they were created
    in; selections with no frame have nowhere to go. *)
Fixpoint fill_questions (sels : list Selection) (frames : list QuestionFrame.t)
    : list QuestionFrame.t :=
  match frames, sels with
  | f :: frames, sel :: sels => fill_question sel f :: fill_questions sels frames
  | frames, _ => frames
  end.

Definition fill_in (R : Response) (qf : QuestionnaireFrame.t) : QuestionnaireFrame.t :=
  with_comment (default EmptyString (comment R))
    (with_question_frames
       (fill_questions (answers R) (QuestionnaireFrame.question_frames qf)) qf).

Definition render (Q : QuestionnaireSchema.t) : result QuestionnaireFrame.t :=
  QuestionnaireFrame.create_widgets
    (QuestionnaireSchema.title Q) (QuestionnaireSchema.author Q)
    (QuestionnaireSchema.introduction Q)
    (map QuestionSchema.dict (QuestionnaireSchema.questions Q)).

(** The transcript of questionnaire [Q] answered with [R]: what [submit]
    produces on the widgets of [Q] holding [R]. *)
Definition format (Q : QuestionnaireSchema.t) (R : Response) : result string :=
  qf ←! render Q;
  Ok (QuestionnaireFrame.submit (fill_in R qf)).

(** The example of the specification. *)
Definition Q_color : QuestionnaireSchema.t :=
  {| QuestionnaireSchema.title := "T";
     QuestionnaireSchema.author := "A";
     QuestionnaireSchema.introduction := "I";
     QuestionnaireSchema.questions :=
       [ {| QuestionSchema.question := "Color?";
            QuestionSchema.options := ["Red"; "Blue"] |} ] |}.

Definition R_blue_thanks : Response :=
  {| answers := [ {| checked := {[1]}; custom_text := Some EmptyString |} ];
     comment := Some "thanks" |}.


Definition no_selection : Selection :=
  {| checked := ∅; custom_text := None |}.

Definition selection_at (R : Response) (i : nat) : Selection :=
  default no_selection (answers R !! i).

(** A response matches a questionnaire: one selection per question, every
    checked index a position in that question's option list. *)
Definition structurally_matching (Q : QuestionnaireSchema.t) (R : Response) : Prop :=
  Forall2 (λ q sel, set_Forall (λ j, j < length (QuestionSchema.options q)) (checked sel))
          (QuestionnaireSchema.questions Q) (answers R).

(** Nothing checked, nothing typed. *)
Definition blank_selection (sel : Selection) : Prop :=
  checked sel = ∅ ∧ (custom_text sel = None ∨ custom_text sel = Some EmptyString).

(** ** The transcript, part by part *)

(** The widgets a question starts with. *)
Definition initial_frame (q : QuestionSchema.t) : QuestionFrame.t :=
  {| QuestionFrame.question_label := QuestionSchema.question q;
     QuestionFrame.option_frames := OptionFrame.create <$> QuestionSchema.options q;
     QuestionFrame.custom_option := EmptyString |}.

Definition bullet (option_text : string) : string := "  * " +:+ option_text.

Definition option_lines (ofs : list OptionFrame.t) : list string :=
  (λ o, bullet (OptionFrame.option o)) <$> filter (λ o, OptionFrame.selected o) ofs.

Definition custom_lines (custom_option : string) : list string :=
  if truthy custom_option then ["  + " +:+ custom_option] else [].

Definition question_lines (f : QuestionFrame.t) : list string :=
  (nl +:+ QuestionFrame.question_label f)
    :: option_lines (QuestionFrame.option_frames f)
    ++ custom_lines (QuestionFrame.custom_option f).

Definition comment_lines (comment : string) : list string :=
  if truthy comment then [nl +:+ "Client comments:" +:+ nl +:+ comment] else [].

(** The texts of the options whose position is in [chk], in the order of
    [options]. *)
Definition checked_options (options : list string) (chk : gset nat) : list string :=
  (filter (λ jo, jo.1 ∈ chk) (imap pair options)).*2.

(** The lines one question contributes under response [R]. *)
Definition answer_lines (q : QuestionSchema.t) (sel : Selection) : list string :=
  (nl +:+ QuestionSchema.question q)
    :: (bullet <$> checked_options (QuestionSchema.options q) (checked sel))
    ++ custom_lines (default EmptyString (custom_text sel)).

(** ** The formatter as the specification words it *)

(** ASCII white space, as Python's [str.isspace] has it. *)
Definition is_space (c : ascii) : bool :=
  let n := nat_of_ascii c in
  (((9 <=? n) && (n <=? 13)) || ((28 <=? n) && (n <=? 32)))%nat.

Fixpoint lstrip (s : string) : string :=
  match s with
  | EmptyString => EmptyString
  | String c s' => if is_space c then lstrip s' else s
  end.

Fixpoint rstrip (s : string) : string :=
  match s with
  | EmptyString => EmptyString
  | String c s' =>
      match rstrip s' with
      | EmptyString => if is_space c then EmptyString else String c EmptyString
      | r => String c r
      end
  end.

Definition strip (s : string) : string := rstrip (lstrip s).

(** Steps 1 to 4 of the algorithm, line by line, with [trim] applied to
    the custom texts and to the comment.  A blank line is an empty line of
    its own.  A question with no selection counts as not answered. *)
Definition spec_question_lines (trim : string → string)
    (q : QuestionSchema.t) (sel : Selection) : list string :=
  [EmptyString; QuestionSchema.question q]
    ++ (bullet <$> checked_options (QuestionSchema.options q) (checked sel))
    ++ match custom_text sel with
       | Some text => if truthy (trim text) then ["  + " +:+ trim text] else []
       | None => []
       end.

Definition spec_comment_lines (trim : string → string) (c : option string) : list string :=
  match c with
  | Some text =>
      if truthy (trim text) then [EmptyString; "Client comments:"; trim text] else []
  | None => []
  end.

Definition spec_format (trim : string → string)
    (Q : QuestionnaireSchema.t) (R : Response) : string :=
  join nl
    ([QuestionnaireFrame.title_line (QuestionnaireSchema.title Q)]
       ++ concat (imap (λ i q, spec_question_lines trim q (selection_at R i))
                       (QuestionnaireSchema.questions Q))
       ++ spec_comment_lines trim (comment R)).

(** No custom text and no comment carries white space at either end. *)
Definition already_trimmed (R : Response) : Prop :=
  Forall (λ sel, ∀ text, custom_text sel = Some text → strip text = text) (answers R)
  ∧ ∀ text, comment R = Some text → strip text = text.

(** ** Closing the window *)

(** The two ways the specification allows a closed window to end the
    call: an exception, or the empty transcript. *)
Definition abandoned_as_specified (r : outcome (option string)) : Prop :=
  (∃ e, r = Raises e) ∨ r = Returns (Some EmptyString).

Definition kw_color : ClientQuestionnaireTool.kwargs :=
  {| ClientQuestionnaireTool.kw_title := Some "T";
     ClientQuestionnaireTool.kw_author := Some "A";
     ClientQuestionnaireTool.kw_introduction := Some "I";
     ClientQuestionnaireTool.kw_questions :=
       Some (QuestionnaireSchema.questions Q_color) |}.

Definition R_spaces : Response :=
  {| answers := [ {| checked := ∅; custom_text := Some " " |} ];
     comment := None |}.

(** The lines of the transcript of [Q] under [R], as [submit] collects
    them: a blank line before a text is a newline at its front. *)
Definition transcript_lines (Q : QuestionnaireSchema.t) (R : Response) : list string :=
  QuestionnaireFrame.title_line (QuestionnaireSchema.title Q)
    :: concat (imap (λ i q, answer_lines q (selection_at R i))
                    (QuestionnaireSchema.questions Q))
    ++ comment_lines (default EmptyString (comment R)).

(** What a joined list holds after its first line. *)
Fixpoint join_rest (sep : string) (lines : list string) : string :=
  match lines with
  | [] => EmptyString
  | x :: l => sep +:+ x +:+ join_rest sep l
  end.

(** The widgets after a run of events, none of which ends the loop. *)
Definition edits (events : list event) (qf : QuestionnaireFrame.t) : QuestionnaireFrame.t :=
  foldl (λ qf ev, edit ev qf) qf events.

Definition is_click (ev : event) : Prop :=
  match ev with
  | ClickOption _ _ => True
  | _ => False
  end.

(** Clicks on the check buttons [js] of one question, one after the other. *)
Definition clicks (js : list nat) (f : QuestionFrame.t) : QuestionFrame.t :=
  foldl (λ f j, click_option j f) f js.

(** Events by which the human enters a response into fresh widgets: for
    each question a click on every checked option and the custom text,
    then the comment. *)
Definition enter_selection (i : nat) (sel : Selection) : list event :=
  (ClickOption i <$> elements (checked sel))
    ++ [EditCustomOption i (default EmptyString (custom_text sel))].

Definition enter_response (R : Response) : list event :=
  concat (imap enter_selection (answers R))
    ++ [EditComment (default EmptyString (comment R))].

(** The questionnaire a call of [_run] is about. *)
Definition schema_of (kw : ClientQuestionnaireTool.kwargs) : QuestionnaireSchema.t :=
  {| QuestionnaireSchema.title :=
       default "No title" (ClientQuestionnaireTool.kw_title kw);
     QuestionnaireSchema.author :=
       default "No author" (ClientQuestionnaireTool.kw_author kw);
     QuestionnaireSchema.introduction :=
       default "No introduction" (ClientQuestionnaireTool.kw_introduction kw);
     QuestionnaireSchema.questions :=
       default [] (ClientQuestionnaireTool.kw_questions kw) |}.

(** ** Further definitions *)

(** An event that ends the main loop. *)
Definition is_end (ev : event) : Prop := ev = PressSubmit ∨ ev = CloseWindow.

(** The widgets a question dict is given, when it holds its question. *)
Definition frame_of (d : question_data) : QuestionFrame.t :=
  {| QuestionFrame.question_label := default EmptyString (qd_question d);
     QuestionFrame.option_frames := OptionFrame.create <$> default [] (qd_options d);
     QuestionFrame.custom_option := EmptyString |}.

(** The texts a question frame shows: its label and its options. *)
Definition shown (f : QuestionFrame.t) : string * list string :=
  (QuestionFrame.question_label f,
   OptionFrame.option <$> QuestionFrame.option_frames f).

(** The raw fields a QuestionnaireSchema is built from; [None]: the field
    is not given.  A field that is given has the type the class declares
    for it; what the class does with a field of another type is not
    modelled. *)
Record questionnaire_data : Type := {
  qn_title : option string;
  qn_author : option string;
  qn_introduction : option string;
  qn_questions : option (list question_data);
}.

Fixpoint validate_questions (raws : list question_data)
    : result (list QuestionSchema.t) :=
  match raws with
  | [] => Ok []
  | raw :: raws =>
      q ←! QuestionSchema.validate raw;
      qs ←! validate_questions raws;
      Ok (q :: qs)
  end.

(** Construction of the QuestionnaireSchema: title, author and
    introduction have the defaults the class gives them, questions is
    required. *)
Definition QuestionnaireSchema_validate (raw : questionnaire_data)
    : result QuestionnaireSchema.t :=
  match qn_questions raw with
  | None => Raise (ValidationError "questions")
  | Some raws =>
      qs ←! validate_questions raws;
      Ok {| QuestionnaireSchema.title :=
              default "Title of the questionnaire." (qn_title raw);
            QuestionnaireSchema.author :=
              default "Name or role of an agent who is the author of the questionnaire."
                      (qn_author raw);
            QuestionnaireSchema.introduction :=
              default "Short introduction to the questionnaire and instructions for the client."
                      (qn_introduction raw);
            QuestionnaireSchema.questions := qs |}
  end.

(** ** The submit method, with the state it runs in *)

(** What a call of [submit] can see and change: the widgets, the
    questionnaire object behind the callback, and whether the window is
    still there. *)
Record world : Type := {
  widgets : QuestionnaireFrame.t;
  session : Questionnaire.t;
  window_open : bool;
}.

(** A step of the method: it gives a value and leaves a state. *)
Definition action (A : Type) : Type := world → A * world.

Definition act_ret {A : Type} (a : A) : action A := λ w, (a, w).

Definition act_bind {A B : Type} (m : action A) (k : A → action B) : action B :=
  λ w, let (a, w') := m w in k a w'.

Notation "x ←@ m ; k" := (act_bind m (λ x, k))
  (at level 100, m at next level, k at level 200, right associativity).

(** The widget calls of [submit].  A question frame is named by its
    position in [question_frames], an option frame by its position in the
    question frame's [option_frames]. *)
Definition self_title : action string :=
  λ w, (QuestionnaireFrame.title (widgets w), w).

Definition question_frames_of_self : action (list nat) :=
  λ w, (seq 0 (length (QuestionnaireFrame.question_frames (widgets w))), w).

Definition question_frame_at (w : world) (i : nat) : QuestionFrame.t :=
  default {| QuestionFrame.question_label := EmptyString;
             QuestionFrame.option_frames := [];
             QuestionFrame.custom_option := EmptyString |}
          (QuestionnaireFrame.question_frames (widgets w) !! i).

Definition option_frame_at (w : world) (i j : nat) : OptionFrame.t :=
  default {| OptionFrame.option := EmptyString; OptionFrame.selected := false |}
          (QuestionFrame.option_frames (question_frame_at w i) !! j).

Definition question_label_cget_text (i : nat) : action string :=
  λ w, (QuestionFrame.question_label (question_frame_at w i), w).

Definition option_frames_of (i : nat) : action (list nat) :=
  λ w, (seq 0 (length (QuestionFrame.option_frames (question_frame_at w i))), w).

Definition option_of (i j : nat) : action string :=
  λ w, (OptionFrame.option (option_frame_at w i j), w).

Definition check_button_instate_selected (i j : nat) : action bool :=
  λ w, (OptionFrame.selected (option_frame_at w i j), w).

Definition custom_option_get (i : nat) : action string :=
  λ w, (QuestionFrame.custom_option (question_frame_at w i), w).

Definition comment_get : action string :=
  λ w, (QuestionnaireFrame.comment (widgets w), w).

(** The callback: it stores the response and destroys the window. *)
Definition self_on_client_response (response : string) : action unit :=
  λ w, (tt, {| widgets := widgets w;
               session := Questionnaire.on_client_response (session w) response;
               window_open := false |}).

(** A for loop that carries the list of lines. *)
Fixpoint for_each {A : Type} (l : list A)
    (body : A → list string → action (list string))
    (lines : list string) : action (list string) :=
  match l with
  | [] => act_ret lines
  | x :: l => lines ←@ body x lines; for_each l body lines
  end.

(** The method up to the join: the formatting. *)
Definition formatting : action string :=
  title ←@ self_title;
  let client_response_lines := [QuestionnaireFrame.title_line title] in
  question_frames ←@ question_frames_of_self;
  client_response_lines ←@
    for_each question_frames
      (λ question_frame client_response_lines,
         question_label ←@ question_label_cget_text question_frame;
         let client_response_lines :=
           client_response_lines ++ [nl +:+ question_label] in
         option_frames ←@ option_frames_of question_frame;
         client_response_lines ←@
           for_each option_frames
             (λ option_frame client_response_lines,
                option ←@ option_of question_frame option_frame;
                checked ←@ check_button_instate_selected question_frame option_frame;
                act_ret (if checked
                         then client_response_lines ++ ["  * " +:+ option]
                         else client_response_lines))
             client_response_lines;
         custom_option ←@ custom_option_get question_frame;
         act_ret (if truthy custom_option
                  then client_response_lines ++ ["  + " +:+ custom_option]
                  else client_response_lines))
      client_response_lines;
  comment ←@ comment_get;
  let client_response_lines :=
    if truthy comment
    then client_response_lines ++ [nl +:+ "Client comments:" +:+ nl +:+ comment]
    else client_response_lines in
  act_ret (join nl client_response_lines).

(** The whole method: the formatting, then the callback. *)
Definition submit_method : action unit :=
  client_response ←@ formatting;
  self_on_client_response client_response.


(** * Properties *)

(** ** Loops that append *)

Lemma foldl_snoc_fmap {A B : Type} (f : A → B) (l : list A) (acc : list B) :
  foldl (λ acc x, acc ++ [f x]) acc l = acc ++ (f <$> l).
Proof.
  revert acc. induction l as [|x l IH]; intros acc; simpl.
  - by rewrite app_nil_r.
  - by rewrite IH, <- app_assoc.
Qed.

Lemma foldl_option_lines (ofs : list OptionFrame.t) (lines : list string) :
  foldl (λ lines option_frame,
           if OptionFrame.selected option_frame
           then lines ++ ["  * " +:+ OptionFrame.option option_frame]
           else lines) lines ofs
  = lines ++ option_lines ofs.
Proof.
  revert lines. unfold option_lines.
  induction ofs as [|o ofs IH]; intros lines; simpl.
  - by rewrite app_nil_r.
  - rewrite IH, filter_cons. destruct (OptionFrame.selected o) eqn:Hsel.
    + rewrite decide_True by exact I. simpl. by rewrite <- app_assoc.
    + rewrite decide_False by (intros []). done.
Qed.

Lemma foldl_question_lines (frames : list QuestionFrame.t) (lines : list string) :
  foldl (λ lines question_frame,
           let lines := lines ++ [nl +:+ QuestionFrame.question_label question_frame] in
           let lines :=
             foldl (λ lines option_frame,
                      if OptionFrame.selected option_frame
                      then lines ++ ["  * " +:+ OptionFrame.option option_frame]
                      else lines)
                   lines (QuestionFrame.option_frames question_frame) in
           let custom_option := QuestionFrame.custom_option question_frame in
           if truthy custom_option
           then lines ++ ["  + " +:+ custom_option]
           else lines) lines frames
  = lines ++ concat (question_lines <$> frames).
Proof.
  revert lines. induction frames as [|f frames IH]; intros lines; simpl.
  - by rewrite app_nil_r.
  - rewrite IH, foldl_option_lines. unfold question_lines, custom_lines.
    destruct (truthy (QuestionFrame.custom_option f)); simpl;
      rewrite <- ?app_assoc; simpl; by rewrite ?app_nil_r.
Qed.

Lemma client_response_lines_eq (self : QuestionnaireFrame.t) :
  QuestionnaireFrame.client_response_lines self
  = QuestionnaireFrame.title_line (QuestionnaireFrame.title self)
      :: concat (question_lines <$> QuestionnaireFrame.question_frames self)
      ++ comment_lines (QuestionnaireFrame.comment self).
Proof.
  unfold QuestionnaireFrame.client_response_lines, comment_lines.
  rewrite foldl_question_lines.
  destruct (truthy (QuestionnaireFrame.comment self)); simpl; by rewrite ?app_nil_r.
Qed.

(** ** Creating the widgets *)

Lemma QuestionFrame_create_widgets_dict (q : QuestionSchema.t) :
  QuestionFrame.create_widgets (QuestionSchema.dict q) = Ok (initial_frame q).
Proof.
  unfold QuestionFrame.create_widgets, initial_frame. simpl.
  unfold get_options. simpl. by rewrite foldl_snoc_fmap.
Qed.

Lemma foldl_create_question_frames (qs : list QuestionSchema.t)
    (frames : list QuestionFrame.t) :
  foldl (λ acc question_data,
           frames ←! acc;
           question_frame ←! QuestionFrame.create_widgets question_data;
           Ok (frames ++ [question_frame]))
        (Ok frames) (QuestionSchema.dict <$> qs)
  = Ok (frames ++ (initial_frame <$> qs)).
Proof.
  revert frames. induction qs as [|q qs IH]; intros frames.
  - simpl. by rewrite app_nil_r.
  - rewrite fmap_cons. cbn [foldl bind].
    rewrite QuestionFrame_create_widgets_dict. cbn [bind].
    by rewrite IH, <- app_assoc.
Qed.

Lemma render_ok (Q : QuestionnaireSchema.t) :
  render Q
  = Ok {| QuestionnaireFrame.title := QuestionnaireSchema.title Q;
          QuestionnaireFrame.author := QuestionnaireSchema.author Q;
          QuestionnaireFrame.introduction := QuestionnaireSchema.introduction Q;
          QuestionnaireFrame.question_frames :=
            initial_frame <$> QuestionnaireSchema.questions Q;
          QuestionnaireFrame.comment := EmptyString |}.
Proof.
  unfold render, QuestionnaireFrame.create_widgets.
  change (map QuestionSchema.dict) with (fmap (M:=list) QuestionSchema.dict).
  by rewrite foldl_create_question_frames.
Qed.

(** ** Entering a response *)

Lemma option_lines_create (opts : list string) :
  option_lines (OptionFrame.create <$> opts) = [].
Proof.
  unfold option_lines. induction opts as [|o opts IH]; [done|].
  rewrite fmap_cons, filter_cons_False by (intros []). done.
Qed.

Lemma checked_options_empty (opts : list string) : checked_options opts ∅ = [].
Proof.
  unfold checked_options. generalize (@pair nat string).
  induction opts as [|o opts IH]; intros f; [done|].
  simpl. rewrite filter_cons_False by set_solver. apply IH.
Qed.

Lemma option_lines_fill_from (idx : nat → nat) (opts : list string) (chk : gset nat) :
  option_lines
    (imap (λ j o, {| OptionFrame.option := OptionFrame.option o;
                     OptionFrame.selected := bool_decide (idx j ∈ chk) |})
          (OptionFrame.create <$> opts))
  = bullet <$> (filter (λ jo, jo.1 ∈ chk) (imap (λ j o, (idx j, o)) opts)).*2.
Proof.
  revert idx. induction opts as [|o opts IH]; intros idx; [done|].
  rewrite fmap_cons, !imap_cons. unfold option_lines in *.
  rewrite !filter_cons. cbn [OptionFrame.selected fst].
  specialize (IH (idx ∘ S)).
  destruct (decide (idx 0 ∈ chk)) as [Hin|Hout].
  - rewrite bool_decide_true by done. rewrite decide_True by exact I.
    rewrite !fmap_cons. simpl. f_equal. apply IH.
  - rewrite bool_decide_false by done. rewrite decide_False by (intros []).
    apply IH.
Qed.

Lemma option_lines_fill (opts : list string) (chk : gset nat) :
  option_lines
    (imap (λ j o, {| OptionFrame.option := OptionFrame.option o;
                     OptionFrame.selected := bool_decide (j ∈ chk) |})
          (OptionFrame.create <$> opts))
  = bullet <$> checked_options opts chk.
Proof. apply (option_lines_fill_from id). Qed.

Lemma question_lines_fill (q : QuestionSchema.t) (sel : Selection) :
  question_lines (fill_question sel (initial_frame q)) = answer_lines q sel.
Proof.
  unfold question_lines, answer_lines, fill_question, initial_frame. simpl.
  by rewrite option_lines_fill.
Qed.

Lemma question_lines_initial (q : QuestionSchema.t) :
  question_lines (initial_frame q) = answer_lines q no_selection.
Proof.
  unfold question_lines, answer_lines, initial_frame. simpl.
  by rewrite option_lines_create, checked_options_empty.
Qed.

Lemma question_lines_fill_questions (sels : list Selection) (qs : list QuestionSchema.t) :
  question_lines <$> fill_questions sels (initial_frame <$> qs)
  = imap (λ i q, answer_lines q (default no_selection (sels !! i))) qs.
Proof.
  revert sels. induction qs as [|q qs IH]; intros sels; [by destruct sels|].
  destruct sels as [|sel sels].
  - simpl. rewrite question_lines_initial. f_equal.
    specialize (IH []). destruct qs; [done|]. simpl in IH. apply IH.
  - rewrite fmap_cons. simpl. rewrite question_lines_fill. f_equal. apply IH.
Qed.

Lemma submit_fill_in (Q : QuestionnaireSchema.t) (R : Response)
    (qf : QuestionnaireFrame.t) :
  render Q = Ok qf →
  QuestionnaireFrame.submit (fill_in R qf) = join nl (transcript_lines Q R).
Proof.
  rewrite render_ok. intros [= <-].
  unfold QuestionnaireFrame.submit. f_equal.
  rewrite client_response_lines_eq. unfold fill_in, transcript_lines. simpl.
  by rewrite question_lines_fill_questions.
Qed.

Lemma format_eq (Q : QuestionnaireSchema.t) (R : Response) :
  format Q R = Ok (join nl (transcript_lines Q R)).
Proof.
  unfold format. destruct (render Q) as [qf|e] eqn:Hqf.
  - cbn [bind]. f_equal. by apply submit_fill_in.
  - by rewrite render_ok in Hqf.
Qed.

(** ** Joining lines *)

Lemma append_String (c : ascii) (s t : string) :
  String c s +:+ t = String c (s +:+ t).
Proof. reflexivity. Qed.

Lemma append_nil_r (s : string) : s +:+ EmptyString = s.
Proof. induction s as [|c s IH]; [done|]. by rewrite append_String, IH. Qed.

Lemma append_assoc (s1 s2 s3 : string) : (s1 +:+ s2) +:+ s3 = s1 +:+ s2 +:+ s3.
Proof. induction s1 as [|c s1 IH]; [done|]. by rewrite !append_String, IH. Qed.

Lemma join_cons (sep x : string) (l : list string) :
  join sep (x :: l) = x +:+ join_rest sep l.
Proof.
  unfold join. revert x. induction l as [|y l IH]; intros x.
  - cbn [String.concat join_rest]. by rewrite append_nil_r.
  - change (String.concat sep (x :: y :: l))
      with (x +:+ sep +:+ String.concat sep (y :: l)).
    by rewrite IH.
Qed.

Lemma join_rest_app (sep : string) (l1 l2 : list string) :
  join_rest sep (l1 ++ l2) = join_rest sep l1 +:+ join_rest sep l2.
Proof.
  induction l1 as [|x l1 IH]; simpl; [done|].
  by rewrite IH, !append_assoc.
Qed.

Lemma join_rest_concat_imap {A : Type} (f g : nat → A → list string) (l : list A) :
  (∀ i x, l !! i = Some x → join_rest nl (f i x) = join_rest nl (g i x)) →
  join_rest nl (concat (imap f l)) = join_rest nl (concat (imap g l)).
Proof.
  revert f g. induction l as [|x l IH]; intros f g Hfg; [done|].
  rewrite !imap_cons. simpl. rewrite !join_rest_app.
  rewrite (Hfg 0 x) by done. f_equal.
  apply IH. intros i y Hy. apply (Hfg (S i) y Hy).
Qed.

(** A line that starts with a newline reads as a blank line and a line. *)
Lemma join_rest_blank_line (s : string) (l : list string) :
  join_rest nl ((nl +:+ s) :: l) = join_rest nl (EmptyString :: s :: l).
Proof. simpl. done. Qed.

(** ** The formatter and the algorithm of the specification *)

Lemma join_rest_answer_lines (q : QuestionSchema.t) (sel : Selection) :
  join_rest nl (answer_lines q sel) = join_rest nl (spec_question_lines id q sel).
Proof.
  unfold answer_lines, spec_question_lines.
  rewrite join_rest_blank_line. cbn [app]. do 3 f_equal.
  unfold custom_lines. by destruct (custom_text sel).
Qed.

Lemma join_rest_comment_lines (c : option string) :
  join_rest nl (comment_lines (default EmptyString c))
  = join_rest nl (spec_comment_lines id c).
Proof.
  unfold comment_lines, spec_comment_lines.
  destruct c as [text|]; [|done]. simpl.
  destruct (truthy text); [|done]. simpl.
  by rewrite !append_assoc, !append_nil_r.
Qed.

Lemma format_spec_format_id (Q : QuestionnaireSchema.t) (R : Response) :
  format Q R = Ok (spec_format id Q R).
Proof.
  rewrite format_eq. f_equal. unfold transcript_lines, spec_format.
  cbn [app]. rewrite !join_cons. f_equal. rewrite !join_rest_app. f_equal.
  - apply join_rest_concat_imap. intros i q _. apply join_rest_answer_lines.
  - apply join_rest_comment_lines.
Qed.

Lemma spec_question_lines_trimmed (q : QuestionSchema.t) (sel : Selection) :
  (∀ text, custom_text sel = Some text → strip text = text) →
  spec_question_lines strip q sel = spec_question_lines id q sel.
Proof.
  intros Hsel. unfold spec_question_lines. do 2 f_equal.
  destruct (custom_text sel) as [text|]; [|done].
  by rewrite (Hsel text eq_refl).
Qed.

Lemma spec_format_trimmed (Q : QuestionnaireSchema.t) (R : Response) :
  already_trimmed R → spec_format strip Q R = spec_format id Q R.
Proof.
  intros [Hsels Hc]. unfold spec_format. do 3 f_equal.
  - f_equal. apply imap_ext. intros i q _. apply spec_question_lines_trimmed.
    unfold selection_at. destruct (answers R !! i) as [sel|] eqn:Hi; simpl.
    + rewrite Forall_lookup in Hsels. apply (Hsels i sel Hi).
    + done.
  - unfold spec_comment_lines. destruct (comment R) as [text|]; [|done].
    by rewrite (Hc text eq_refl).
Qed.

(** ** The session *)

Lemma edit_title (ev : event) (qf : QuestionnaireFrame.t) :
  QuestionnaireFrame.title (edit ev qf) = QuestionnaireFrame.title qf.
Proof. by destruct ev. Qed.

Lemma mainloop_until_close (self : Questionnaire.t) (qf : QuestionnaireFrame.t)
    (before rest : list event) :
  PressSubmit ∉ before →
  Questionnaire.mainloop self qf (before ++ CloseWindow :: rest) = Some self.
Proof.
  revert qf. induction before as [|ev before IH]; intros qf Hno; [done|].
  apply not_elem_of_cons in Hno as [Hev Hno].
  destruct ev; simpl; try done; by apply IH.
Qed.

Lemma mainloop_until_submit (self : Questionnaire.t) (qf : QuestionnaireFrame.t)
    (before rest : list event) :
  PressSubmit ∉ before → CloseWindow ∉ before →
  Questionnaire.mainloop self qf (before ++ PressSubmit :: rest)
  = Some (Questionnaire.on_client_response self
            (QuestionnaireFrame.submit (edits before qf))).
Proof.
  revert qf. induction before as [|ev before IH]; intros qf Hs Hc; [done|].
  apply not_elem_of_cons in Hs as [Hev Hs].
  apply not_elem_of_cons in Hc as [Hev' Hc].
  destruct ev; simpl; try done; by apply IH.
Qed.

Lemma mainloop_client_response (self self' : Questionnaire.t)
    (qf : QuestionnaireFrame.t) (events : list event) (s : string) :
  Questionnaire.client_response self = None →
  Questionnaire.mainloop self qf events = Some self' →
  Questionnaire.client_response self' = Some s →
  ∃ qf', QuestionnaireFrame.title qf' = QuestionnaireFrame.title qf
         ∧ s = QuestionnaireFrame.submit qf'.
Proof.
  intros Hnone. revert qf.
  induction events as [|ev events IH]; intros qf Hloop Hs; [done|].
  destruct ev; simpl in Hloop;
    try (destruct (IH _ Hloop Hs) as (qf' & Htitle & ->);
         exists qf'; split; [by rewrite Htitle|done]).
  - injection Hloop as <-. simpl in Hs. injection Hs as <-. by exists qf.
  - injection Hloop as <-. congruence.
Qed.

Lemma submit_title_line (qf : QuestionnaireFrame.t) :
  ∃ body, QuestionnaireFrame.submit qf
          = QuestionnaireFrame.title_line (QuestionnaireFrame.title qf) +:+ body.
Proof.
  unfold QuestionnaireFrame.submit. rewrite client_response_lines_eq, join_cons.
  by eexists.
Qed.

Lemma create_widgets_dict (title author introduction : string)
    (qs : list QuestionSchema.t) :
  QuestionnaireFrame.create_widgets title author introduction
    (map QuestionSchema.dict qs)
  = Ok {| QuestionnaireFrame.title := title;
          QuestionnaireFrame.author := author;
          QuestionnaireFrame.introduction := introduction;
          QuestionnaireFrame.question_frames := initial_frame <$> qs;
          QuestionnaireFrame.comment := EmptyString |}.
Proof.
  apply (render_ok {| QuestionnaireSchema.title := title;
                      QuestionnaireSchema.author := author;
                      QuestionnaireSchema.introduction := introduction;
                      QuestionnaireSchema.questions := qs |}).
Qed.

Lemma run_never_raises (kw : ClientQuestionnaireTool.kwargs) (events : list event)
    (e : py_error) :
  ClientQuestionnaireTool._run kw events ≠ Raises e.
Proof.
  unfold ClientQuestionnaireTool._run, Questionnaire.get_client_response,
    Questionnaire.show, ClientQuestionnaireTool.questionnaire. simpl.
  rewrite create_widgets_dict.
  by destruct (Questionnaire.mainloop _ _ _).
Qed.

Lemma run_submitted_title (kw : ClientQuestionnaireTool.kwargs)
    (events : list event) (s : string) :
  ClientQuestionnaireTool._run kw events = Returns (Some s) →
  ∃ body,
    s = QuestionnaireFrame.title_line
          (default "No title" (ClientQuestionnaireTool.kw_title kw)) +:+ body.
Proof.
  unfold ClientQuestionnaireTool._run, Questionnaire.get_client_response,
    Questionnaire.show, ClientQuestionnaireTool.questionnaire. simpl.
  rewrite create_widgets_dict.
  destruct (Questionnaire.mainloop _ _ _) as [self'|] eqn:Hloop; [|done].
  intros [= Hs].
  eapply mainloop_client_response in Hloop as (qf' & Htitle & ->); [|done..].
  destruct (submit_title_line qf') as [body ->]. rewrite Htitle. by exists body.
Qed.

Lemma run_closed (kw : ClientQuestionnaireTool.kwargs)
    (before rest : list event) :
  PressSubmit ∉ before →
  ClientQuestionnaireTool._run kw (before ++ CloseWindow :: rest) = Returns None.
Proof.
  intros Hno.
  unfold ClientQuestionnaireTool._run, Questionnaire.get_client_response,
    Questionnaire.show, ClientQuestionnaireTool.questionnaire. simpl.
  rewrite create_widgets_dict.
  by rewrite mainloop_until_close.
Qed.

(** ** Clicking and typing *)

Lemma edits_app (evs1 evs2 : list event) (qf : QuestionnaireFrame.t) :
  edits (evs1 ++ evs2) qf = edits evs2 (edits evs1 qf).
Proof. apply foldl_app. Qed.

Lemma click_option_comm (j1 j2 : nat) (f : QuestionFrame.t) :
  click_option j1 (click_option j2 f) = click_option j2 (click_option j1 f).
Proof.
  unfold click_option. simpl. f_equal.
  destruct (decide (j1 = j2)) as [->|Hne]; [done|].
  by apply list_alter_alter_ne.
Qed.

Lemma clicks_permutation (js1 js2 : list nat) (f : QuestionFrame.t) :
  js1 ≡ₚ js2 → clicks js1 f = clicks js2 f.
Proof.
  intros Hp. revert f. unfold clicks.
  induction Hp as [|j js1 js2 _ IH|j1 j2 js|js1 js2 js3 _ IH1 _ IH2]; intros f.
  - done.
  - simpl. apply IH.
  - simpl. by rewrite click_option_comm.
  - by rewrite IH1.
Qed.

Lemma with_question_frames_twice (l1 l2 : list QuestionFrame.t)
    (qf : QuestionnaireFrame.t) :
  with_question_frames l1 (with_question_frames l2 qf) = with_question_frames l1 qf.
Proof. done. Qed.

Lemma edits_clicks (i : nat) (js : list nat) (qf : QuestionnaireFrame.t) :
  edits (ClickOption i <$> js) qf
  = with_question_frames
      (alter (clicks js) i (QuestionnaireFrame.question_frames qf)) qf.
Proof.
  revert qf. induction js as [|j js IH]; intros qf.
  - simpl. rewrite list_alter_id by done. by destruct qf.
  - rewrite fmap_cons. unfold edits in *. cbn [foldl]. rewrite IH.
    unfold edit. rewrite with_question_frames_twice. f_equal.
    cbn [with_question_frames QuestionnaireFrame.question_frames].
    by rewrite list_alter_alter_eq.
Qed.

(** Clicks on distinct buttons of fresh widgets select just those. *)
Lemma click_fresh (j : nat) (X : gset nat) (ofs : list OptionFrame.t) :
  j ∉ X →
  alter OptionFrame.click j
    (imap (λ k o, {| OptionFrame.option := OptionFrame.option o;
                     OptionFrame.selected := bool_decide (k ∈ X) |}) ofs)
  = imap (λ k o, {| OptionFrame.option := OptionFrame.option o;
                    OptionFrame.selected := bool_decide (k ∈ {[j]} ∪ X) |}) ofs.
Proof.
  intros Hj. apply list_eq. intros k.
  rewrite list_lookup_alter, !list_lookup_imap.
  destruct (decide (j = k)) as [<-|Hne].
  - destruct (ofs !! j) as [o|]; [|done]. simpl. f_equal.
    unfold OptionFrame.click. simpl. f_equal.
    rewrite bool_decide_false by done. rewrite bool_decide_true by set_solver. done.
  - destruct (ofs !! k) as [o|]; [|done]. simpl. do 2 f_equal.
    apply bool_decide_ext. set_solver.
Qed.

Lemma clicks_fresh (js : list nat) (X : gset nat) (f : QuestionFrame.t) :
  NoDup js → (∀ j, j ∈ js → j ∉ X) →
  QuestionFrame.option_frames
    (clicks js
       {| QuestionFrame.question_label := QuestionFrame.question_label f;
          QuestionFrame.option_frames :=
            imap (λ k o, {| OptionFrame.option := OptionFrame.option o;
                            OptionFrame.selected := bool_decide (k ∈ X) |})
                 (QuestionFrame.option_frames f);
          QuestionFrame.custom_option := QuestionFrame.custom_option f |})
  = imap (λ k o, {| OptionFrame.option := OptionFrame.option o;
                    OptionFrame.selected := bool_decide (k ∈ list_to_set js ∪ X) |})
         (QuestionFrame.option_frames f).
Proof.
  intros Hnd. revert X. induction Hnd as [|j js Hj Hnd IH]; intros X HX.
  - simpl. apply imap_ext. intros k o _. f_equal. apply bool_decide_ext. set_solver.
  - unfold clicks in *. cbn [foldl]. unfold click_option at 2. simpl.
    rewrite click_fresh by (apply HX; set_solver).
    rewrite (IH ({[j]} ∪ X)) by set_solver.
    apply imap_ext. intros k o _. f_equal. apply bool_decide_ext. set_solver.
Qed.

Lemma clicks_question_label (js : list nat) (f : QuestionFrame.t) :
  QuestionFrame.question_label (clicks js f) = QuestionFrame.question_label f.
Proof.
  revert f. unfold clicks. induction js as [|j js IH]; intros f; [done|].
  simpl. by rewrite IH.
Qed.

Lemma clicks_initial_frame (q : QuestionSchema.t) (sel : Selection) :
  set_custom_option (default EmptyString (custom_text sel))
    (clicks (elements (checked sel)) (initial_frame q))
  = fill_question sel (initial_frame q).
Proof.
  unfold set_custom_option, fill_question.
  rewrite clicks_question_label. f_equal.
  pose proof (clicks_fresh (elements (checked sel)) ∅ (initial_frame q)
                (NoDup_elements _)) as Hclicks.
  rewrite list_to_set_elements_L, (right_id_L ∅ (∪)) in Hclicks.
  rewrite <- Hclicks by set_solver. do 2 f_equal.
  unfold initial_frame. simpl. f_equal.
  induction (QuestionSchema.options q) as [|o opts IH]; [done|].
  rewrite fmap_cons, imap_cons. f_equal.
  rewrite IH at 1. apply imap_ext. intros k x _. simpl. f_equal.
Qed.

Lemma edits_enter_selection (i : nat) (sel : Selection) (qf : QuestionnaireFrame.t) :
  (∀ f, QuestionnaireFrame.question_frames qf !! i = Some f →
        ∃ q, f = initial_frame q) →
  edits (enter_selection i sel) qf
  = with_question_frames
      (alter (fill_question sel) i (QuestionnaireFrame.question_frames qf)) qf.
Proof.
  intros Hfresh. unfold enter_selection. rewrite edits_app, edits_clicks.
  unfold edits. cbn [foldl edit]. rewrite with_question_frames_twice. f_equal.
  cbn [with_question_frames QuestionnaireFrame.question_frames].
  rewrite list_alter_alter_eq. apply list_alter_ext; [|done].
  intros f Hf. destruct (Hfresh f Hf) as [q ->]. apply clicks_initial_frame.
Qed.

Lemma fill_questions_lookup_ge (sels : list Selection) (frames : list QuestionFrame.t)
    (n : nat) :
  (length sels ≤ n)%nat → fill_questions sels frames !! n = frames !! n.
Proof.
  revert frames n. induction sels as [|sel sels IH]; intros frames n Hn.
  - by destruct frames.
  - destruct frames as [|f frames]; [done|].
    destruct n as [|n]; simpl in *; [lia|]. apply IH. lia.
Qed.

Lemma fill_questions_nil (frames : list QuestionFrame.t) :
  fill_questions [] frames = frames.
Proof. by destruct frames. Qed.

Lemma fill_questions_snoc (sels : list Selection) (sel : Selection)
    (frames : list QuestionFrame.t) :
  alter (fill_question sel) (length sels) (fill_questions sels frames)
  = fill_questions (sels ++ [sel]) frames.
Proof.
  revert frames. induction sels as [|s sels IH]; intros frames.
  - by destruct frames as [|f [|f' frames]].
  - destruct frames as [|f frames]; [done|]. simpl. f_equal. apply IH.
Qed.

Lemma edits_enter_selections (sels : list Selection) (qs : list QuestionSchema.t)
    (qf : QuestionnaireFrame.t) :
  QuestionnaireFrame.question_frames qf = initial_frame <$> qs →
  edits (concat (imap enter_selection sels)) qf
  = with_question_frames (fill_questions sels (initial_frame <$> qs)) qf.
Proof.
  intros Hqf. induction sels as [|sel sels IH] using rev_ind.
  - cbn [imap concat]. rewrite fill_questions_nil, <- Hqf. by destruct qf.
  - rewrite imap_app, concat_app, edits_app, IH. simpl.
    rewrite app_nil_r, Nat.add_0_r.
    rewrite edits_enter_selection.
    + rewrite with_question_frames_twice. f_equal.
      cbn [with_question_frames QuestionnaireFrame.question_frames].
      apply fill_questions_snoc.
    + intros f. cbn [with_question_frames QuestionnaireFrame.question_frames].
      rewrite fill_questions_lookup_ge by done.
      rewrite list_lookup_fmap. destruct (qs !! length sels) as [q|]; [|done].
      intros [= <-]. by exists q.
Qed.

Lemma edits_enter_response (R : Response) (Q : QuestionnaireSchema.t)
    (qf : QuestionnaireFrame.t) :
  render Q = Ok qf → edits (enter_response R) qf = fill_in R qf.
Proof.
  rewrite render_ok. intros [= <-]. unfold enter_response.
  rewrite edits_app.
  rewrite (edits_enter_selections _ (QuestionnaireSchema.questions Q)) by done.
  done.
Qed.

Lemma enter_selection_entries (i : nat) (sel : Selection) :
  Forall (λ ev, ev ≠ PressSubmit ∧ ev ≠ CloseWindow) (enter_selection i sel).
Proof.
  unfold enter_selection. apply Forall_app. split.
  - apply Forall_fmap, Forall_true. by intros j.
  - by repeat constructor.
Qed.

Lemma enter_response_entries (R : Response) :
  Forall (λ ev, ev ≠ PressSubmit ∧ ev ≠ CloseWindow) (enter_response R).
Proof.
  unfold enter_response. apply Forall_app. split; [|by repeat constructor].
  generalize enter_selection_entries. generalize enter_selection.
  induction (answers R) as [|sel sels IH]; intros f Hf; [constructor|].
  rewrite imap_cons. simpl. apply Forall_app. split; [apply Hf|].
  apply IH. intros i s. apply Hf.
Qed.

Lemma enter_response_no_end (R : Response) :
  (PressSubmit ∉ enter_response R) ∧ (CloseWindow ∉ enter_response R).
Proof.
  pose proof (enter_response_entries R) as Hall. rewrite Forall_forall in Hall.
  split; intros Hin; apply Hall in Hin; naive_solver.
Qed.

(** A response entered and submitted comes back formatted. *)
Lemma run_response (kw : ClientQuestionnaireTool.kwargs) (R : Response)
    (rest : list event) :
  ClientQuestionnaireTool._run kw (enter_response R ++ PressSubmit :: rest)
  = Returns (Some (join nl (transcript_lines (schema_of kw) R))).
Proof.
  destruct (enter_response_no_end R) as [Hs Hc].
  unfold ClientQuestionnaireTool._run, Questionnaire.get_client_response,
    Questionnaire.show, ClientQuestionnaireTool.questionnaire.
  cbn [Questionnaire.init Questionnaire.title Questionnaire.author
         Questionnaire.introduction Questionnaire.questions].
  rewrite create_widgets_dict.
  rewrite mainloop_until_submit by done.
  cbn [Questionnaire.on_client_response Questionnaire.client_response].
  do 2 f_equal.
  pose proof (render_ok (schema_of kw)) as Hrender.
  etrans; [|apply (submit_fill_in (schema_of kw) R _ Hrender)].
  f_equal. apply (edits_enter_response R (schema_of kw) _ Hrender).
Qed.

(** ** The checked options *)

Lemma checked_options_sublist (opts : list string) (chk : gset nat) :
  checked_options opts chk `sublist_of` opts.
Proof.
  unfold checked_options.
  assert (Hsnd : (imap pair opts).*2 = opts).
  { rewrite fmap_imap. rewrite <- (list_fmap_id opts) at 2.
    rewrite <- imap_const. by apply imap_ext. }
  rewrite <- Hsnd at 2. apply fmap_sublist, sublist_filter.
Qed.

Lemma elem_of_checked_options (opts : list string) (chk : gset nat) (o : string) :
  o ∈ checked_options opts chk ↔ ∃ j, j ∈ chk ∧ opts !! j = Some o.
Proof.
  unfold checked_options. rewrite list_elem_of_fmap. split.
  - intros ([j o'] & -> & Hin). apply list_elem_of_filter in Hin as [Hj Hin].
    apply elem_of_lookup_imap in Hin as (i & y & [= -> ->] & Hy). by exists i.
  - intros (j & Hj & Ho). exists (j, o). split; [done|].
    apply list_elem_of_filter. split; [done|].
    by apply (elem_of_lookup_imap_2 pair).
Qed.

Lemma length_checked_options (opts : list string) (chk : gset nat) :
  length (checked_options opts chk)
  = size (filter (λ j, j < length opts) chk).
Proof.
  unfold checked_options. rewrite length_fmap.
  induction opts as [|o opts IH] using rev_ind.
  - simpl. symmetry. apply size_empty_iff. intros j.
    rewrite elem_of_filter, elem_of_empty. lia.
  - rewrite imap_app, filter_app, !length_app, IH. simpl.
    rewrite Nat.add_0_r, filter_cons, filter_nil. simpl.
    destruct (decide (length opts ∈ chk)) as [Hin|Hout]; simpl.
    + assert (Heq : filter (λ j, j < length opts + 1) chk
                    = filter (λ j, j < length opts) chk ∪ {[length opts]}).
      { apply set_eq. intros j.
        rewrite elem_of_union, !elem_of_filter, elem_of_singleton.
        split; [intros [Hlt Hj]|intros [[Hlt Hj]| ->]]; [|split; [lia|done]..].
        destruct (decide (j = length opts)); [by right|left; split; [lia|done]]. }
      rewrite Heq, size_union, size_singleton; [done|].
      intros j. rewrite elem_of_filter, elem_of_singleton. lia.
    + rewrite Nat.add_0_r. f_equal. apply set_eq. intros j.
      rewrite !elem_of_filter. split; intros [Hlt Hj]; (split; [|done]); [lia|].
      destruct (decide (j = length opts)) as [->|]; [done|lia].
Qed.

(** * The claims *)

(** C1: the questionnaire titled T with the one question Color? and the
    options Red and Blue, answered with option 1 checked, an empty custom
    text and the comment thanks, gives the title line, a blank line,
    Color?, the bullet line for Blue, a blank line, Client comments:, and
    thanks, joined by newlines with no newline at the end.  The same
    string comes back from a run in which the human clicks Blue, types
    the comment and submits. *)
Theorem C1_color_example :
  format Q_color R_blue_thanks
  = Ok ("Client answers to the questionnaire " +:+ dquote +:+ "T" +:+ dquote +:+ ":"
        +:+ nl +:+ nl +:+ "Color?" +:+ nl +:+ "  * Blue"
        +:+ nl +:+ nl +:+ "Client comments:" +:+ nl +:+ "thanks")
  ∧ ClientQuestionnaireTool._run kw_color
      [ClickOption 0 1; EditComment "thanks"; PressSubmit]
    = Returns (Some
        ("Client answers to the questionnaire " +:+ dquote +:+ "T" +:+ dquote +:+ ":"
         +:+ nl +:+ nl +:+ "Color?" +:+ nl +:+ "  * Blue"
         +:+ nl +:+ nl +:+ "Client comments:" +:+ nl +:+ "thanks")).
Proof. split; vm_compute; reflexivity. Qed.

(** C5: a questionnaire with no questions, answered with no selections
    and no comment, gives the title line alone. *)
Theorem C5_empty_questionnaire (title author introduction : string) :
  format {| QuestionnaireSchema.title := title;
            QuestionnaireSchema.author := author;
            QuestionnaireSchema.introduction := introduction;
            QuestionnaireSchema.questions := [] |}
         {| answers := []; comment := None |}
  = Ok ("Client answers to the questionnaire " +:+ dquote +:+ title +:+ dquote +:+ ":").
Proof. rewrite format_eq. reflexivity. Qed.

Lemma answer_lines_blank (q : QuestionSchema.t) (sel : Selection) :
  blank_selection sel → answer_lines q sel = [nl +:+ QuestionSchema.question q].
Proof.
  intros [Hchk Htext]. unfold answer_lines.
  rewrite Hchk, checked_options_empty. by destruct Htext as [-> | ->].
Qed.

Lemma selection_at_blank (R : Response) (i : nat) :
  Forall blank_selection (answers R) → blank_selection (selection_at R i).
Proof.
  intros Hall. unfold selection_at.
  destruct (answers R !! i) as [sel|] eqn:Hi; simpl.
  - rewrite Forall_lookup in Hall. by apply (Hall i).
  - split; [done|by left].
Qed.

Lemma concat_imap_singleton {A B : Type} (f : nat → A → list B) (h : A → B)
    (l : list A) :
  (∀ i x, f i x = [h x]) → concat (imap f l) = h <$> l.
Proof.
  revert f. induction l as [|x l IH]; intros f Hf; [done|].
  rewrite imap_cons. simpl. rewrite Hf. simpl. f_equal.
  apply IH. intros i y. apply Hf.
Qed.

Lemma join_rest_headers (qs : list QuestionSchema.t) :
  join_rest nl ((λ q, nl +:+ QuestionSchema.question q) <$> qs)
  = join_rest nl (concat ((λ q, [EmptyString; QuestionSchema.question q]) <$> qs)).
Proof.
  induction qs as [|q qs IH]; [done|].
  rewrite !fmap_cons. cbn [concat app]. rewrite join_rest_blank_line.
  cbn [join_rest]. by rewrite IH.
Qed.

(** C4: when every selection is blank (nothing checked, custom text empty
    or absent) and there is no comment, the transcript is the title line
    and then, for each question in order, a blank line and the question's
    text: no bullet line, no plus line, no comment block.  The second
    part says the same of the lines as [submit] collects them. *)
Theorem C4_blank_response (Q : QuestionnaireSchema.t) (R : Response) :
  Forall blank_selection (answers R) →
  comment R = None →
  format Q R
  = Ok (join nl
          (QuestionnaireFrame.title_line (QuestionnaireSchema.title Q)
             :: concat ((λ q, [EmptyString; QuestionSchema.question q])
                          <$> QuestionnaireSchema.questions Q)))
  ∧ transcript_lines Q R
    = QuestionnaireFrame.title_line (QuestionnaireSchema.title Q)
        :: ((λ q, nl +:+ QuestionSchema.question q)
              <$> QuestionnaireSchema.questions Q).
Proof.
  intros Hblank Hcomment.
  assert (Hlines : transcript_lines Q R
    = QuestionnaireFrame.title_line (QuestionnaireSchema.title Q)
        :: ((λ q, nl +:+ QuestionSchema.question q)
              <$> QuestionnaireSchema.questions Q)).
  { unfold transcript_lines. rewrite Hcomment. simpl. rewrite app_nil_r. f_equal.
    apply concat_imap_singleton. intros i q.
    apply answer_lines_blank, selection_at_blank, Hblank. }
  split; [|done].
  rewrite format_eq, Hlines, !join_cons. by rewrite join_rest_headers.
Qed.

Lemma C4_blank_response_witness :
  Forall blank_selection (answers {| answers := [no_selection]; comment := None |})
  ∧ comment {| answers := [no_selection]; comment := None |} = None
  ∧ format Q_color {| answers := [no_selection]; comment := None |}
    = Ok (join nl
            (QuestionnaireFrame.title_line "T" :: [EmptyString; "Color?"])).
Proof.
  assert (H : Forall blank_selection
                (answers {| answers := [no_selection]; comment := None |})).
  { constructor; [|constructor]. split; [reflexivity|by left]. }
  split; [exact H|]. split; [reflexivity|].
  exact (proj1 (C4_blank_response Q_color
                  {| answers := [no_selection]; comment := None |} H eq_refl)).
Defined.

(** C6: for question [i] of the questionnaire, with text and options [q]
    and selection [sel], the lines the question contributes are its
    header, then one bullet line per chosen option, then the custom line.
    The chosen options are the options at the checked positions and no
    others, in the order of the option list, one line per checked
    position; an unchecked option contributes nothing.  The order of the
    clicks that checked them does not show in the transcript. *)
Theorem C6_checked_options_in_order (Q : QuestionnaireSchema.t) (R : Response)
    (i : nat) (q : QuestionSchema.t) (sel : Selection) :
  QuestionnaireSchema.questions Q !! i = Some q →
  answers R !! i = Some sel →
  let chosen := checked_options (QuestionSchema.options q) (checked sel) in
  format Q R = Ok (join nl (transcript_lines Q R))
  ∧ (∃ blocks,
       transcript_lines Q R
       = QuestionnaireFrame.title_line (QuestionnaireSchema.title Q)
           :: concat blocks ++ comment_lines (default EmptyString (comment R))
       ∧ length blocks = length (QuestionnaireSchema.questions Q)
       ∧ blocks !! i
         = Some ((nl +:+ QuestionSchema.question q)
                   :: ((λ o, "  * " +:+ o) <$> chosen)
                   ++ custom_lines (default EmptyString (custom_text sel))))
  ∧ chosen `sublist_of` QuestionSchema.options q
  ∧ (∀ o, o ∈ chosen ↔ ∃ j, j ∈ checked sel ∧ QuestionSchema.options q !! j = Some o)
  ∧ length chosen
    = size (filter (λ j, j < length (QuestionSchema.options q)) (checked sel))
  ∧ (∀ (qf : QuestionnaireFrame.t) (js1 js2 : list nat),
       js1 ≡ₚ js2 →
       QuestionnaireFrame.submit (edits (ClickOption i <$> js1) qf)
       = QuestionnaireFrame.submit (edits (ClickOption i <$> js2) qf)).
Proof.
  intros Hq Hsel chosen. split; [apply format_eq|]. split.
  - eexists. split; [reflexivity|]. split; [apply length_imap|].
    rewrite list_lookup_imap, Hq. unfold selection_at. by rewrite Hsel.
  - split; [apply checked_options_sublist|].
    split; [apply elem_of_checked_options|].
    split; [apply length_checked_options|].
    intros qf js1 js2 Hperm. rewrite !edits_clicks. do 2 f_equal.
    apply list_alter_ext; [|done]. intros f _. by apply clicks_permutation.
Qed.

Lemma C6_checked_options_in_order_witness :
  QuestionnaireSchema.questions Q_color !! 0
  = Some {| QuestionSchema.question := "Color?";
            QuestionSchema.options := ["Red"; "Blue"] |}
  ∧ answers R_blue_thanks !! 0
    = Some {| checked := {[1]}; custom_text := Some EmptyString |}
  ∧ checked_options ["Red"; "Blue"] {[1]} `sublist_of` ["Red"; "Blue"].
Proof.
  split; [reflexivity|]. split; [reflexivity|].
  pose proof (C6_checked_options_in_order Q_color R_blue_thanks 0
                {| QuestionSchema.question := "Color?";
                   QuestionSchema.options := ["Red"; "Blue"] |}
                {| checked := {[1]}; custom_text := Some EmptyString |}
                eq_refl eq_refl) as H.
  cbv zeta in H. destruct H as (_ & _ & H & _). exact H.
Defined.

Lemma Q_color_matching : structurally_matching Q_color R_blue_thanks.
Proof.
  unfold structurally_matching. simpl. constructor; [|constructor].
  intros j Hj. simpl in Hj. apply elem_of_singleton in Hj as ->. simpl. lia.
Qed.

Lemma mainloop_fields (self self' : Questionnaire.t) (qf : QuestionnaireFrame.t)
    (events : list event) :
  Questionnaire.mainloop self qf events = Some self' →
  Questionnaire.title self' = Questionnaire.title self
  ∧ Questionnaire.author self' = Questionnaire.author self
  ∧ Questionnaire.introduction self' = Questionnaire.introduction self
  ∧ Questionnaire.questions self' = Questionnaire.questions self.
Proof.
  revert qf. induction events as [|ev events IH]; intros qf Hloop; [done|].
  destruct ev; simpl in Hloop; try by apply (IH _ Hloop).
  - by injection Hloop as <-.
  - by injection Hloop as <-.
Qed.

(** ** The submit method as a run of widget calls *)

Lemma for_each_seq {X : Type} (l : list X)
    (body : nat → list string → action (list string))
    (g : list string → X → list string) (w : world) (k : nat) (lines : list string) :
  (∀ i x lines, l !! i = Some x → body (k + i) lines w = (g lines x, w)) →
  for_each (seq k (length l)) body lines w = (foldl g lines l, w).
Proof.
  revert k lines. induction l as [|x l IH]; intros k lines Hbody; [done|].
  cbn [length seq for_each foldl]. unfold act_bind.
  pose proof (Hbody 0 x lines eq_refl) as Hx. rewrite Nat.add_0_r in Hx.
  rewrite Hx. apply IH. intros i y lines' Hy.
  replace (S k + i) with (k + S i) by lia. by apply Hbody.
Qed.

Lemma question_frame_at_lookup (w : world) (i : nat) (f : QuestionFrame.t) :
  QuestionnaireFrame.question_frames (widgets w) !! i = Some f →
  question_frame_at w i = f.
Proof. intros Hf. unfold question_frame_at. by rewrite Hf. Qed.

Lemma option_frame_at_lookup (w : world) (i j : nat) (f : QuestionFrame.t)
    (o : OptionFrame.t) :
  QuestionnaireFrame.question_frames (widgets w) !! i = Some f →
  QuestionFrame.option_frames f !! j = Some o →
  option_frame_at w i j = o.
Proof.
  intros Hf Ho. unfold option_frame_at.
  by rewrite (question_frame_at_lookup w i f Hf), Ho.
Qed.

(** The formatting reads the widgets and writes nothing: it gives the
    string of [QuestionnaireFrame.submit] and leaves the state as it
    found it. *)
Lemma formatting_eq (w : world) :
  formatting w = (QuestionnaireFrame.submit (widgets w), w).
Proof.
  unfold formatting, act_bind, self_title, question_frames_of_self, comment_get,
    act_ret.
  rewrite (for_each_seq (QuestionnaireFrame.question_frames (widgets w)) _
             (λ lines question_frame,
                let lines := lines ++ [nl +:+ QuestionFrame.question_label question_frame] in
                let lines :=
                  foldl (λ lines option_frame,
                           if OptionFrame.selected option_frame
                           then lines ++ ["  * " +:+ OptionFrame.option option_frame]
                           else lines)
                        lines (QuestionFrame.option_frames question_frame) in
                let custom_option := QuestionFrame.custom_option question_frame in
                if truthy custom_option
                then lines ++ ["  + " +:+ custom_option]
                else lines)).
  - reflexivity.
  - intros i f lines Hf. cbn [Nat.add].
    unfold act_bind, question_label_cget_text, option_frames_of, custom_option_get,
      act_ret.
    rewrite (question_frame_at_lookup w i f Hf).
    rewrite (for_each_seq (QuestionFrame.option_frames f) _
               (λ lines option_frame,
                  if OptionFrame.selected option_frame
                  then lines ++ ["  * " +:+ OptionFrame.option option_frame]
                  else lines)).
    + by rewrite (question_frame_at_lookup w i f Hf).
    + intros j o lines' Ho. cbn [Nat.add].
      unfold act_bind, option_of, check_button_instate_selected, act_ret.
      by rewrite (option_frame_at_lookup w i j f o Hf Ho).
Qed.


(** The method is the formatting followed by the callback; this is the
    step the main loop takes at a press on submit. *)
Lemma submit_method_eq (w : world) (rest : list event) :
  submit_method w
  = (tt, {| widgets := widgets w;
            session := Questionnaire.on_client_response (session w)
                         (QuestionnaireFrame.submit (widgets w));
            window_open := false |})
  ∧ Questionnaire.mainloop (session w) (widgets w) (PressSubmit :: rest)
    = Some (session (submit_method w).2).
Proof.
  unfold submit_method, act_bind. rewrite formatting_eq. by split.
Qed.


(** C9: on every questionnaire and matching response the formatter
    returns a string; it raises nothing.  Nor does a run of the tool: the
    one lookup that can raise, of the question key, finds the key in every
    dict the schema produces. *)
Theorem C9_format_total (Q : QuestionnaireSchema.t) (R : Response)
    (kw : ClientQuestionnaireTool.kwargs) (events : list event) :
  structurally_matching Q R →
  (∃ s, format Q R = Ok s)
  ∧ (∀ e, format Q R ≠ Raise e)
  ∧ (∀ e, ClientQuestionnaireTool._run kw events ≠ Raises e).
Proof.
  intros _. rewrite format_eq. split; [by eexists|]. split; [done|].
  intros e. apply run_never_raises.
Qed.

Lemma C9_format_total_witness :
  structurally_matching Q_color R_blue_thanks
  ∧ ∃ s, format Q_color R_blue_thanks = Ok s.
Proof.
  pose proof Q_color_matching as H1.
  split; [exact H1|].
  apply (C9_format_total Q_color R_blue_thanks kw_color [] H1).
Defined.

(** The lookup that can raise does raise on a dict without the key. *)
Example create_widgets_KeyError :
  QuestionFrame.create_widgets {| qd_question := None; qd_options := Some ["Red"] |}
  = Raise (KeyError "question").
Proof. reflexivity. Qed.

(** C7: the run takes title, author and introduction from its keyword
    arguments and puts No title, No author and No introduction where one
    is absent; a value that is there goes through unchanged.  The
    questionnaire is built from these, so a submitted transcript opens
    with the title line of that title. *)
Theorem C7_run_defaults (kw : ClientQuestionnaireTool.kwargs) (R : Response)
    (rest : list event) :
  Questionnaire.title (ClientQuestionnaireTool.questionnaire kw)
  = match ClientQuestionnaireTool.kw_title kw with
    | Some title => title
    | None => "No title"
    end
  ∧ Questionnaire.author (ClientQuestionnaireTool.questionnaire kw)
    = match ClientQuestionnaireTool.kw_author kw with
      | Some author => author
      | None => "No author"
      end
  ∧ Questionnaire.introduction (ClientQuestionnaireTool.questionnaire kw)
    = match ClientQuestionnaireTool.kw_introduction kw with
      | Some introduction => introduction
      | None => "No introduction"
      end
  ∧ ∃ body,
      ClientQuestionnaireTool._run kw (enter_response R ++ PressSubmit :: rest)
      = Returns (Some
          ("Client answers to the questionnaire " +:+ dquote
           +:+ match ClientQuestionnaireTool.kw_title kw with
               | Some title => title
               | None => "No title"
               end
           +:+ dquote +:+ ":" +:+ body)).
Proof.
  split; [done|]. split; [done|]. split; [done|].
  rewrite run_response. unfold transcript_lines. rewrite join_cons.
  eexists. do 2 f_equal. unfold QuestionnaireFrame.title_line.
  rewrite !append_assoc. reflexivity.
Qed.

(** C3 fails: closing the window at once makes the run return None,
    which is neither an exception nor the empty transcript. *)
Lemma C3_counterexample_closed_at_once :
  ClientQuestionnaireTool._run kw_color [CloseWindow] = Returns None
  ∧ ¬ abandoned_as_specified (ClientQuestionnaireTool._run kw_color [CloseWindow]).
Proof.
  split; [reflexivity|]. intros [[e He]|He]; vm_compute in He; discriminate.
Qed.

(** C3 as amended: when the human closes the window before any submit,
    the run returns None, the value the response field starts with; no
    exception is raised.  A submitted response comes back as a string
    that opens with the title line, so None is not among the
    transcripts. *)
Theorem C3_closed_window_returns_None (kw : ClientQuestionnaireTool.kwargs)
    (before rest : list event) (R : Response) :
  PressSubmit ∉ before →
  ClientQuestionnaireTool._run kw (before ++ CloseWindow :: rest) = Returns None
  ∧ Questionnaire.client_response (ClientQuestionnaireTool.questionnaire kw) = None
  ∧ ∃ body,
      ClientQuestionnaireTool._run kw (enter_response R ++ PressSubmit :: rest)
      = Returns (Some
          (QuestionnaireFrame.title_line
             (default "No title" (ClientQuestionnaireTool.kw_title kw)) +:+ body)).
Proof.
  intros Hno. split; [by apply run_closed|]. split; [done|].
  rewrite run_response. unfold transcript_lines. rewrite join_cons. by eexists.
Qed.

Lemma C3_closed_window_returns_None_witness :
  (PressSubmit ∉ [ClickOption 0 1; EditComment "thanks"])
  ∧ ClientQuestionnaireTool._run kw_color
      ([ClickOption 0 1; EditComment "thanks"] ++ CloseWindow :: [PressSubmit])
    = Returns None.
Proof.
  assert (H : PressSubmit ∉ [ClickOption 0 1; EditComment "thanks"]).
  { intros Hin. apply elem_of_cons in Hin as [Hin|Hin]; [discriminate|].
    apply elem_of_cons in Hin as [Hin|Hin]; [discriminate|].
    by apply elem_of_nil in Hin. }
  split; [exact H|].
  exact (proj1 (C3_closed_window_returns_None kw_color
                  [ClickOption 0 1; EditComment "thanks"] [PressSubmit]
                  R_blue_thanks H)).
Defined.

(** C2 fails: a custom text of one space is all white space, yet the
    transcript has a plus line for it, with the space kept; the formatter
    that trims gives a different string. *)
Lemma C2_counterexample_space :
  strip " " = EmptyString
  ∧ format Q_color R_spaces
    = Ok ("Client answers to the questionnaire " +:+ dquote +:+ "T" +:+ dquote +:+ ":"
          +:+ nl +:+ nl +:+ "Color?" +:+ nl +:+ "  +  ")
  ∧ format Q_color R_spaces ≠ Ok (spec_format strip Q_color R_spaces).
Proof.
  split; [reflexivity|]. split; [vm_compute; reflexivity|].
  vm_compute. discriminate.
Qed.

(** C2 as amended: the formatter puts every custom text and the comment
    into the transcript as they are, untrimmed: its output is that of the
    specified algorithm with no trimming.  A custom text gives no plus
    line, and a comment no comment block, only when empty or absent.
    Where no custom text and no comment has white space at either end,
    this is also the output of the algorithm with trimming. *)
Theorem C2_texts_verbatim (Q : QuestionnaireSchema.t) (R : Response) :
  format Q R = Ok (spec_format id Q R)
  ∧ (already_trimmed R → format Q R = Ok (spec_format strip Q R)).
Proof.
  split; [apply format_spec_format_id|].
  intros Htrim. rewrite spec_format_trimmed by done. apply format_spec_format_id.
Qed.

Lemma C2_texts_verbatim_witness :
  already_trimmed R_blue_thanks
  ∧ format Q_color R_blue_thanks = Ok (spec_format strip Q_color R_blue_thanks).
Proof.
  assert (H : already_trimmed R_blue_thanks).
  { split.
    - constructor; [|constructor]. intros text [= <-]. reflexivity.
    - intros text [= <-]. reflexivity. }
  split; [exact H|].
  exact (proj2 (C2_texts_verbatim Q_color R_blue_thanks) H).
Defined.

Lemma edit_click_no_options (ev : event) (qf : QuestionnaireFrame.t) :
  is_click ev →
  Forall (λ f, QuestionFrame.option_frames f = []) (QuestionnaireFrame.question_frames qf) →
  edit ev qf = qf.
Proof.
  intros Hev Hnone. destruct ev as [q o| | | |]; try done. clear Hev.
  destruct qf as [t a i frames c]. unfold edit, with_question_frames. simpl in *.
  f_equal. apply list_eq. intros k. rewrite list_lookup_alter.
  destruct (decide (q = k)) as [->|]; [|done].
  destruct (frames !! k) as [f|] eqn:Hf; [|done]. simpl. f_equal.
  rewrite Forall_lookup in Hnone. specialize (Hnone k f Hf).
  destruct f as [label ofs custom]. unfold click_option. simpl in *. by subst ofs.
Qed.

Lemma edits_clicks_no_options (events : list event) (qf : QuestionnaireFrame.t) :
  Forall is_click events →
  Forall (λ f, QuestionFrame.option_frames f = []) (QuestionnaireFrame.question_frames qf) →
  edits events qf = qf.
Proof.
  intros Hclicks Hnone. induction Hclicks as [|ev events Hev _ IH]; [done|].
  unfold edits in *. cbn [foldl]. by rewrite edit_click_no_options.
Qed.

(** C10: a question record with no options entry is taken as a question
    with no options, by the schema and by the widgets alike.  The schema
    gives it the empty option list; the question frame gets no option
    frames; and whatever the human clicks, the submitted transcript holds
    for it the blank line and the question's text, with no bullet line
    under it.  With a selection entered, the question's lines are its
    header and the custom line, if any. *)
Theorem C10_missing_options (raw : question_data) (text : string)
    (title author introduction : string) (clicked : list event) (sel : Selection) :
  qd_question raw = Some text →
  qd_options raw = None →
  Forall is_click clicked →
  QuestionSchema.validate raw
  = Ok {| QuestionSchema.question := text; QuestionSchema.options := [] |}
  ∧ QuestionFrame.create_widgets raw
    = Ok {| QuestionFrame.question_label := text;
            QuestionFrame.option_frames := [];
            QuestionFrame.custom_option := EmptyString |}
  ∧ Questionnaire.get_client_response
      (Questionnaire.init title author introduction [raw])
      (clicked ++ [PressSubmit])
    = Returns (Some (QuestionnaireFrame.title_line title +:+ nl +:+ nl +:+ text))
  ∧ question_lines
      (fill_question sel
         {| QuestionFrame.question_label := text;
            QuestionFrame.option_frames := [];
            QuestionFrame.custom_option := EmptyString |})
    = (nl +:+ text) :: custom_lines (default EmptyString (custom_text sel)).
Proof.
  intros Hq Ho Hclicks.
  assert (Hframe : QuestionFrame.create_widgets raw
    = Ok {| QuestionFrame.question_label := text;
            QuestionFrame.option_frames := [];
            QuestionFrame.custom_option := EmptyString |}).
  { unfold QuestionFrame.create_widgets, getitem_question, get_options.
    by rewrite Hq, Ho. }
  split; [unfold QuestionSchema.validate; by rewrite Hq, Ho|].
  split; [done|]. split; [|done].
  unfold Questionnaire.get_client_response, Questionnaire.show,
    QuestionnaireFrame.create_widgets.
  cbn [Questionnaire.init Questionnaire.title Questionnaire.author
         Questionnaire.introduction Questionnaire.questions foldl bind].
  rewrite Hframe. cbn [bind app].
  rewrite mainloop_until_submit.
  - rewrite edits_clicks_no_options by (try done; simpl; by repeat constructor).
    cbn [Questionnaire.on_client_response Questionnaire.client_response].
    reflexivity.
  - intros Hin. rewrite Forall_forall in Hclicks. by apply Hclicks in Hin.
  - intros Hin. rewrite Forall_forall in Hclicks. by apply Hclicks in Hin.
Qed.

Lemma C10_missing_options_witness :
  qd_question {| qd_question := Some "Color?"; qd_options := None |} = Some "Color?"
  ∧ qd_options {| qd_question := Some "Color?"; qd_options := None |} = None
  ∧ Forall is_click [ClickOption 0 0; ClickOption 0 1]
  ∧ Questionnaire.get_client_response
      (Questionnaire.init "T" "A" "I"
         [ {| qd_question := Some "Color?"; qd_options := None |} ])
      ([ClickOption 0 0; ClickOption 0 1] ++ [PressSubmit])
    = Returns (Some (QuestionnaireFrame.title_line "T" +:+ nl +:+ nl +:+ "Color?")).
Proof.
  assert (H : Forall is_click [ClickOption 0 0; ClickOption 0 1]).
  { repeat constructor. }
  split; [reflexivity|]. split; [reflexivity|]. split; [exact H|].
  pose proof (C10_missing_options
                {| qd_question := Some "Color?"; qd_options := None |}
                "Color?" "T" "A" "I" [ClickOption 0 0; ClickOption 0 1]
                no_selection eq_refl eq_refl H) as (_ & _ & Hrun & _).
  exact Hrun.
Defined.

(** * Further properties *)

(** ** Question dicts, the schema and the widgets *)

Lemma QuestionFrame_create_widgets_frame_of (d : question_data) :
  is_Some (qd_question d) → QuestionFrame.create_widgets d = Ok (frame_of d).
Proof.
  intros [text Htext].
  unfold QuestionFrame.create_widgets, getitem_question, get_options, frame_of.
  rewrite Htext. cbn [bind default]. by rewrite foldl_snoc_fmap.
Qed.

Lemma QuestionFrame_create_widgets_missing (d : question_data) :
  qd_question d = None → QuestionFrame.create_widgets d = Raise (KeyError "question").
Proof.
  intros Hnone. unfold QuestionFrame.create_widgets, getitem_question.
  by rewrite Hnone.
Qed.

(** X1: a question the schema accepts gets from the question frame the
    widgets of the validated question, whether or not the raw record has
    an options entry: the empty list the schema puts in and the empty list
    the frame falls back to agree.  Turned into a dict and validated
    again, the question comes back unchanged. *)
Theorem X1_schema_and_frame_agree (raw : question_data) (q : QuestionSchema.t) :
  QuestionSchema.validate raw = Ok q →
  QuestionFrame.create_widgets raw = Ok (initial_frame q)
  ∧ QuestionFrame.create_widgets (QuestionSchema.dict q) = Ok (initial_frame q)
  ∧ QuestionSchema.validate (QuestionSchema.dict q) = Ok q.
Proof.
  unfold QuestionSchema.validate. intros Hv.
  destruct (qd_question raw) as [text|] eqn:Htext; [|done].
  injection Hv as <-.
  split; [|split].
  - rewrite QuestionFrame_create_widgets_frame_of by (rewrite Htext; by eexists).
    unfold frame_of, initial_frame. rewrite Htext. simpl.
    by destruct (qd_options raw).
  - apply QuestionFrame_create_widgets_dict.
  - done.
Qed.

Lemma X1_schema_and_frame_agree_witness :
  QuestionSchema.validate {| qd_question := Some "Color?"; qd_options := None |}
  = Ok {| QuestionSchema.question := "Color?"; QuestionSchema.options := [] |}
  ∧ QuestionFrame.create_widgets {| qd_question := Some "Color?"; qd_options := None |}
    = Ok (initial_frame
            {| QuestionSchema.question := "Color?"; QuestionSchema.options := [] |}).
Proof.
  split; [reflexivity|].
  exact (proj1 (X1_schema_and_frame_agree
                  {| qd_question := Some "Color?"; qd_options := None |}
                  {| QuestionSchema.question := "Color?"; QuestionSchema.options := [] |}
                  eq_refl)).
Defined.

Lemma foldl_create_raw_frames (qs : list question_data) (frames : list QuestionFrame.t) :
  Forall (λ d, is_Some (qd_question d)) qs →
  foldl (λ acc question_data,
           frames ←! acc;
           question_frame ←! QuestionFrame.create_widgets question_data;
           Ok (frames ++ [question_frame]))
        (Ok frames) qs
  = Ok (frames ++ (frame_of <$> qs)).
Proof.
  intros Hall. revert frames.
  induction Hall as [|d qs Hd _ IH]; intros frames.
  - simpl. by rewrite app_nil_r.
  - cbn [foldl bind]. rewrite QuestionFrame_create_widgets_frame_of by done.
    cbn [bind]. by rewrite IH, fmap_cons, <- app_assoc.
Qed.

Lemma foldl_create_raised (qs : list question_data) (e : py_error) :
  foldl (λ acc question_data,
           frames ←! acc;
           question_frame ←! QuestionFrame.create_widgets question_data;
           Ok (frames ++ [question_frame]))
        (Raise e) qs
  = Raise e.
Proof. induction qs as [|d qs IH]; [done|]. cbn [foldl bind]. apply IH. Qed.

Lemma foldl_create_missing (qs : list question_data) (frames : list QuestionFrame.t) :
  Exists (λ d, qd_question d = None) qs →
  foldl (λ acc question_data,
           frames ←! acc;
           question_frame ←! QuestionFrame.create_widgets question_data;
           Ok (frames ++ [question_frame]))
        (Ok frames) qs
  = Raise (KeyError "question").
Proof.
  intros Hex. revert frames.
  induction qs as [|d qs IH]; intros frames; [by apply Exists_nil in Hex|].
  cbn [foldl bind]. destruct (qd_question d) as [text|] eqn:Hd.
  - rewrite QuestionFrame_create_widgets_frame_of by (rewrite Hd; by eexists).
    cbn [bind]. apply IH. apply Exists_cons in Hex as [Hex|Hex]; [congruence|done].
  - rewrite QuestionFrame_create_widgets_missing by done. cbn [bind].
    apply foldl_create_raised.
Qed.

Lemma create_widgets_raw (title author introduction : string)
    (qs : list question_data) :
  Forall (λ d, is_Some (qd_question d)) qs →
  QuestionnaireFrame.create_widgets title author introduction qs
  = Ok {| QuestionnaireFrame.title := title;
          QuestionnaireFrame.author := author;
          QuestionnaireFrame.introduction := introduction;
          QuestionnaireFrame.question_frames := frame_of <$> qs;
          QuestionnaireFrame.comment := EmptyString |}.
Proof.
  intros Hall. unfold QuestionnaireFrame.create_widgets.
  by rewrite foldl_create_raw_frames.
Qed.

Lemma create_widgets_missing (title author introduction : string)
    (qs : list question_data) :
  Exists (λ d, qd_question d = None) qs →
  QuestionnaireFrame.create_widgets title author introduction qs
  = Raise (KeyError "question").
Proof.
  intros Hex. unfold QuestionnaireFrame.create_widgets.
  by rewrite foldl_create_missing.
Qed.

Lemma all_or_missing (qs : list question_data) :
  Forall (λ d, is_Some (qd_question d)) qs ∨ Exists (λ d, qd_question d = None) qs.
Proof.
  induction qs as [|d qs [IH|IH]].
  - left. constructor.
  - destruct (qd_question d) as [text|] eqn:Hd.
    + left. constructor; [rewrite Hd; by eexists|done].
    + right. by left.
  - right. by right.
Qed.

(** X3: when the widgets are created, every question dict had its
    question entry, and there is one question frame per dict in the order
    of the list: the label is the question, there is one unselected option
    frame per option in the order given (none when the options entry is
    missing), and the custom text box and the comment box are empty. *)
Theorem X3_widgets_created (title author introduction : string)
    (qs : list question_data) (qf : QuestionnaireFrame.t) :
  QuestionnaireFrame.create_widgets title author introduction qs = Ok qf →
  QuestionnaireFrame.title qf = title
  ∧ QuestionnaireFrame.author qf = author
  ∧ QuestionnaireFrame.introduction qf = introduction
  ∧ QuestionnaireFrame.comment qf = EmptyString
  ∧ length (QuestionnaireFrame.question_frames qf) = length qs
  ∧ ∀ i d, qs !! i = Some d →
      ∃ f, QuestionnaireFrame.question_frames qf !! i = Some f
           ∧ qd_question d = Some (QuestionFrame.question_label f)
           ∧ OptionFrame.option <$> QuestionFrame.option_frames f
             = default [] (qd_options d)
           ∧ Forall (λ o, OptionFrame.selected o = false) (QuestionFrame.option_frames f)
           ∧ QuestionFrame.custom_option f = EmptyString.
Proof.
  intros Hok. destruct (all_or_missing qs) as [Hall|Hex];
    [|by rewrite create_widgets_missing in Hok].
  rewrite create_widgets_raw in Hok by done. injection Hok as <-. simpl.
  do 4 (split; [done|]). split; [by rewrite length_fmap|].
  intros i d Hd. exists (frame_of d). rewrite list_lookup_fmap, Hd.
  split; [done|]. rewrite Forall_lookup in Hall.
  destruct (Hall i d Hd) as [text Htext]. unfold frame_of. simpl.
  rewrite Htext. split; [done|]. split.
  - rewrite <- list_fmap_compose. apply list_fmap_id.
  - split; [|done]. apply Forall_fmap, Forall_true. by intros o.
Qed.

Lemma X3_widgets_created_witness :
  QuestionnaireFrame.create_widgets "T" "A" "I"
    [ {| qd_question := Some "Color?"; qd_options := None |} ]
  = Ok {| QuestionnaireFrame.title := "T";
          QuestionnaireFrame.author := "A";
          QuestionnaireFrame.introduction := "I";
          QuestionnaireFrame.question_frames :=
            [frame_of {| qd_question := Some "Color?"; qd_options := None |}];
          QuestionnaireFrame.comment := EmptyString |}
  ∧ length (QuestionnaireFrame.question_frames
              {| QuestionnaireFrame.title := "T";
                 QuestionnaireFrame.author := "A";
                 QuestionnaireFrame.introduction := "I";
                 QuestionnaireFrame.question_frames :=
                   [frame_of {| qd_question := Some "Color?"; qd_options := None |}];
                 QuestionnaireFrame.comment := EmptyString |})
    = 1.
Proof.
  split; [reflexivity|].
  pose proof (X3_widgets_created "T" "A" "I"
                [ {| qd_question := Some "Color?"; qd_options := None |} ] _
                eq_refl) as (_ & _ & _ & _ & Hlen & _).
  exact Hlen.
Defined.

(** X4: when some question dict has no question entry, showing the
    questionnaire raises a KeyError for that key before any event is
    looked at: nothing the human does matters, and it happens even when
    the dicts before the faulty one are fine. *)
Theorem X4_missing_question_raises (self : Questionnaire.t) (events : list event) :
  Exists (λ d, qd_question d = None) (Questionnaire.questions self) →
  Questionnaire.get_client_response self events = Raises (KeyError "question").
Proof.
  intros Hex. unfold Questionnaire.get_client_response, Questionnaire.show.
  by rewrite create_widgets_missing.
Qed.

Lemma X4_missing_question_raises_witness :
  Exists (λ d, qd_question d = None)
    (Questionnaire.questions
       (Questionnaire.init "T" "A" "I"
          [ {| qd_question := Some "Color?"; qd_options := None |};
            {| qd_question := None; qd_options := Some ["Red"] |} ]))
  ∧ Questionnaire.get_client_response
      (Questionnaire.init "T" "A" "I"
         [ {| qd_question := Some "Color?"; qd_options := None |};
           {| qd_question := None; qd_options := Some ["Red"] |} ])
      [PressSubmit]
    = Raises (KeyError "question").
Proof.
  assert (H : Exists (λ d, qd_question d = None)
    (Questionnaire.questions
       (Questionnaire.init "T" "A" "I"
          [ {| qd_question := Some "Color?"; qd_options := None |};
            {| qd_question := None; qd_options := Some ["Red"] |} ]))).
  { right. left. reflexivity. }
  split; [exact H|].
  exact (X4_missing_question_raises _ [PressSubmit] H).
Defined.

(** ** The main loop *)

Lemma mainloop_blocks_iff (self : Questionnaire.t) (qf : QuestionnaireFrame.t)
    (events : list event) :
  Questionnaire.mainloop self qf events = None
  ↔ Forall (λ ev, ¬ is_end ev) events.
Proof.
  revert qf. induction events as [|ev events IH]; intros qf.
  - split; [constructor|done].
  - rewrite Forall_cons. unfold is_end at 1.
    destruct ev; simpl; rewrite ?IH; try naive_solver.
Qed.

Lemma mainloop_app (self self' : Questionnaire.t) (qf : QuestionnaireFrame.t)
    (events more : list event) :
  Questionnaire.mainloop self qf events = Some self' →
  Questionnaire.mainloop self qf (events ++ more) = Some self'.
Proof.
  revert qf. induction events as [|ev events IH]; intros qf Hloop; [done|].
  destruct ev; simpl in *; try done; by apply IH.
Qed.

Lemma mainloop_split (self self' : Questionnaire.t) (qf : QuestionnaireFrame.t)
    (events : list event) :
  Questionnaire.mainloop self qf events = Some self' →
  ∃ before rest,
    Forall (λ ev, ¬ is_end ev) before
    ∧ ((events = before ++ PressSubmit :: rest
        ∧ self' = Questionnaire.on_client_response self
                    (QuestionnaireFrame.submit (edits before qf)))
       ∨ (events = before ++ CloseWindow :: rest ∧ self' = self)).
Proof.
  revert qf. induction events as [|ev events IH]; intros qf Hloop; [done|].
  destruct ev as [q o|q text|text| |]; cbn [Questionnaire.mainloop] in Hloop.
  1-3: destruct (IH _ Hloop) as (before & rest & Hbefore & Hcases);
       match type of Hloop with
       | Questionnaire.mainloop _ (edit ?ev _) _ = _ => exists (ev :: before), rest
       end;
       (split; [constructor; [unfold is_end; naive_solver|done]|]);
       destruct Hcases as [[-> ->]|[-> ->]]; [by left|by right].
  - injection Hloop as <-. exists [], events. split; [constructor|]. by left.
  - injection Hloop as <-. exists [], events. split; [constructor|]. by right.
Qed.

Lemma not_end_not_elem (events : list event) :
  Forall (λ ev, ¬ is_end ev) events →
  (PressSubmit ∉ events) ∧ (CloseWindow ∉ events).
Proof.
  intros Hall. rewrite Forall_forall in Hall. unfold is_end in Hall.
  split; intros Hin; apply Hall in Hin; naive_solver.
Qed.

(** X5: a run never returns and never raises, it waits, exactly when the
    human neither presses submit nor closes the window: there is no
    timeout and no other way out of the main loop. *)
Theorem X5_blocks_without_end (kw : ClientQuestionnaireTool.kwargs)
    (events : list event) :
  ClientQuestionnaireTool._run kw events = Blocks
  ↔ Forall (λ ev, ev ≠ PressSubmit ∧ ev ≠ CloseWindow) events.
Proof.
  unfold ClientQuestionnaireTool._run, Questionnaire.get_client_response,
    Questionnaire.show, ClientQuestionnaireTool.questionnaire.
  cbn [Questionnaire.init Questionnaire.title Questionnaire.author
         Questionnaire.introduction Questionnaire.questions].
  rewrite create_widgets_dict.
  destruct (Questionnaire.mainloop _ _ _) as [self'|] eqn:Hloop.
  - split; [done|]. intros Hall.
    assert (Hnone : Forall (λ ev, ¬ is_end ev) events).
    { eapply Forall_impl; [exact Hall|]. unfold is_end. naive_solver. }
    eapply mainloop_blocks_iff in Hnone. by rewrite Hnone in Hloop.
  - split; [|done]. intros _. apply mainloop_blocks_iff in Hloop.
    eapply Forall_impl; [exact Hloop|]. unfold is_end. naive_solver.
Qed.

(** X6: once a call has ended, by submit, by closing or by an error,
    what the human would have done afterwards changes nothing: the result
    is that of the events up to the end.  So a second press on submit is
    not processed, and a submit after the window was closed is lost. *)
Theorem X6_events_after_end_ignored (self : Questionnaire.t)
    (events more : list event) :
  Questionnaire.get_client_response self events ≠ Blocks →
  Questionnaire.get_client_response self (events ++ more)
  = Questionnaire.get_client_response self events.
Proof.
  unfold Questionnaire.get_client_response, Questionnaire.show.
  destruct (QuestionnaireFrame.create_widgets _ _ _ _) as [qf|e]; [|done].
  destruct (Questionnaire.mainloop self qf events) as [self'|] eqn:Hloop; [|done].
  intros _. by rewrite (mainloop_app _ _ _ _ more Hloop).
Qed.

Lemma X6_events_after_end_ignored_witness :
  Questionnaire.get_client_response (ClientQuestionnaireTool.questionnaire kw_color)
    [ClickOption 0 1; PressSubmit] ≠ Blocks
  ∧ Questionnaire.get_client_response (ClientQuestionnaireTool.questionnaire kw_color)
      ([ClickOption 0 1; PressSubmit] ++ [ClickOption 0 0; PressSubmit])
    = Questionnaire.get_client_response (ClientQuestionnaireTool.questionnaire kw_color)
        [ClickOption 0 1; PressSubmit].
Proof.
  assert (H : Questionnaire.get_client_response
                (ClientQuestionnaireTool.questionnaire kw_color)
                [ClickOption 0 1; PressSubmit] ≠ Blocks).
  { vm_compute. discriminate. }
  split; [exact H|].
  exact (X6_events_after_end_ignored _ [ClickOption 0 1; PressSubmit]
           [ClickOption 0 0; PressSubmit] H).
Defined.

(** X7: a run of the tool returns None exactly when the first event that
    ends the loop is the closing of the window, and returns a string
    exactly when it is a press on submit; the string is then the
    transcript of the widgets as the events before it left them. *)
Theorem X7_run_result (kw : ClientQuestionnaireTool.kwargs) (events : list event) :
  (ClientQuestionnaireTool._run kw events = Returns None
   ↔ ∃ before rest, events = before ++ CloseWindow :: rest
                    ∧ Forall (λ ev, ¬ is_end ev) before)
  ∧ ∀ s, ClientQuestionnaireTool._run kw events = Returns (Some s)
         ↔ ∃ before rest qf,
             events = before ++ PressSubmit :: rest
             ∧ Forall (λ ev, ¬ is_end ev) before
             ∧ render (schema_of kw) = Ok qf
             ∧ s = QuestionnaireFrame.submit (edits before qf).
Proof.
  unfold ClientQuestionnaireTool._run, Questionnaire.get_client_response,
    Questionnaire.show, ClientQuestionnaireTool.questionnaire.
  cbn [Questionnaire.init Questionnaire.title Questionnaire.author
         Questionnaire.introduction Questionnaire.questions].
  rewrite create_widgets_dict, (render_ok (schema_of kw)).
  cbn [schema_of QuestionnaireSchema.title QuestionnaireSchema.author
         QuestionnaireSchema.introduction QuestionnaireSchema.questions].
  split; [|intros s]; split.
  - destruct (Questionnaire.mainloop _ _ _) as [self'|] eqn:Hloop; [|done].
    intros [= Hnone].
    apply mainloop_split in Hloop as (before & rest & Hbefore & [[-> ->]|[-> ->]]);
      [done|by exists before, rest].
  - intros (before & rest & -> & Hbefore).
    apply not_end_not_elem in Hbefore as [Hs _].
    by rewrite mainloop_until_close.
  - destruct (Questionnaire.mainloop _ _ _) as [self'|] eqn:Hloop; [|done].
    intros [= Hsome].
    apply mainloop_split in Hloop as (before & rest & Hbefore & [[-> ->]|[-> ->]]);
      [|done].
    simpl in Hsome. injection Hsome as <-. by eexists before, rest, _.
  - intros (before & rest & qf & -> & Hbefore & [= <-] & ->).
    apply not_end_not_elem in Hbefore as [Hs Hc].
    by rewrite mainloop_until_submit.
Qed.

(** ** Using a questionnaire object again *)

(** X8: the response field is set when the object is made and by a
    submit, and by nothing else.  So when an object that already holds a
    response is shown again and the human closes the window, the call
    returns the old response, not None. *)
Theorem X8_old_response_returned (self0 self1 : Questionnaire.t)
    (events before rest : list event) (s : string) :
  Questionnaire.show self0 events = Returns self1 →
  Questionnaire.client_response self1 = Some s →
  PressSubmit ∉ before →
  Questionnaire.get_client_response self1 (before ++ CloseWindow :: rest)
  = Returns (Some s).
Proof.
  unfold Questionnaire.get_client_response, Questionnaire.show.
  destruct (QuestionnaireFrame.create_widgets _ _ _ (Questionnaire.questions self0))
    as [qf|e] eqn:Hqf; [|done].
  destruct (Questionnaire.mainloop self0 qf events) as [self'|] eqn:Hloop; [|done].
  intros [= ->] Hs Hno.
  apply mainloop_fields in Hloop as (-> & -> & -> & ->).
  rewrite Hqf, mainloop_until_close by done. by rewrite Hs.
Qed.

Lemma X8_old_response_returned_witness :
  Questionnaire.show (Questionnaire.init "T" "A" "I" []) [PressSubmit]
  = Returns (Questionnaire.on_client_response (Questionnaire.init "T" "A" "I" [])
               (QuestionnaireFrame.title_line "T"))
  ∧ (PressSubmit ∉ [EditComment "x"])
  ∧ Questionnaire.get_client_response
      (Questionnaire.on_client_response (Questionnaire.init "T" "A" "I" [])
         (QuestionnaireFrame.title_line "T"))
      ([EditComment "x"] ++ CloseWindow :: [])
    = Returns (Some (QuestionnaireFrame.title_line "T")).
Proof.
  assert (H : PressSubmit ∉ [EditComment "x"]).
  { intros Hin. apply elem_of_cons in Hin as [Hin|Hin]; [discriminate|].
    by apply elem_of_nil in Hin. }
  split; [reflexivity|]. split; [exact H|].
  exact (X8_old_response_returned (Questionnaire.init "T" "A" "I" []) _
           [PressSubmit] [EditComment "x"] [] _ eq_refl eq_refl H).
Defined.

(** ** From the keyword arguments to the transcript *)

(** X9: when the human enters a response into the form the tool shows,
    by clicking the checked options of each question, typing the custom
    texts and the comment, and then presses submit, the run returns the
    transcript the formatter gives for the questionnaire of the keyword
    arguments and that response. *)
Theorem X9_run_returns_format (kw : ClientQuestionnaireTool.kwargs) (R : Response)
    (rest : list event) :
  ∃ s, format (schema_of kw) R = Ok s
       ∧ ClientQuestionnaireTool._run kw (enter_response R ++ PressSubmit :: rest)
         = Returns (Some s).
Proof.
  exists (join nl (transcript_lines (schema_of kw) R)).
  split; [apply format_eq|apply run_response].
Qed.

(** X10: the texts go into the transcript unescaped, so the transcript
    does not tell a closing comment from a question: widgets with the
    comment [c] give the same transcript as widgets with no comment and
    one more question, left unanswered, whose text is the comment heading,
    a newline and [c]. *)
Theorem X10_comment_reads_as_question (qf : QuestionnaireFrame.t) (c : string) :
  c ≠ EmptyString →
  QuestionnaireFrame.submit (with_comment c qf)
  = QuestionnaireFrame.submit
      (with_comment EmptyString
         (with_question_frames
            (QuestionnaireFrame.question_frames qf
               ++ [ {| QuestionFrame.question_label := "Client comments:" +:+ nl +:+ c;
                       QuestionFrame.option_frames := [];
                       QuestionFrame.custom_option := EmptyString |} ])
            qf)).
Proof.
  intros Hc. unfold QuestionnaireFrame.submit. f_equal.
  rewrite !client_response_lines_eq. simpl. f_equal.
  rewrite fmap_app, concat_app, app_nil_r. f_equal.
  unfold comment_lines. by destruct c.
Qed.

Lemma X10_comment_reads_as_question_witness :
  "thanks" ≠ EmptyString
  ∧ QuestionnaireFrame.submit
      {| QuestionnaireFrame.title := "T"; QuestionnaireFrame.author := "A";
         QuestionnaireFrame.introduction := "I";
         QuestionnaireFrame.question_frames := [];
         QuestionnaireFrame.comment := "thanks" |}
    = QuestionnaireFrame.submit
        {| QuestionnaireFrame.title := "T"; QuestionnaireFrame.author := "A";
           QuestionnaireFrame.introduction := "I";
           QuestionnaireFrame.question_frames :=
             [ {| QuestionFrame.question_label := "Client comments:" +:+ nl +:+ "thanks";
                  QuestionFrame.option_frames := [];
                  QuestionFrame.custom_option := EmptyString |} ];
           QuestionnaireFrame.comment := EmptyString |}.
Proof.
  assert (H : "thanks" ≠ EmptyString) by discriminate.
  split; [exact H|].
  exact (X10_comment_reads_as_question
           {| QuestionnaireFrame.title := "T"; QuestionnaireFrame.author := "A";
              QuestionnaireFrame.introduction := "I";
              QuestionnaireFrame.question_frames := [];
              QuestionnaireFrame.comment := EmptyString |} "thanks" H).
Defined.

(** ** What the human cannot change *)

Lemma shown_click_option (o : nat) (f : QuestionFrame.t) :
  shown (click_option o f) = shown f.
Proof.
  unfold shown, click_option. simpl. f_equal.
  rewrite (list_fmap_alter _ _ id).
  - by rewrite list_alter_id.
  - apply Forall_true. by intros x.
Qed.

Lemma shown_edit (ev : event) (qf : QuestionnaireFrame.t) :
  shown <$> QuestionnaireFrame.question_frames (edit ev qf)
  = shown <$> QuestionnaireFrame.question_frames qf.
Proof.
  destruct ev as [q o|q text|text| |]; try done; simpl.
  - rewrite (list_fmap_alter _ _ id).
    + by rewrite list_alter_id.
    + apply Forall_true. intros f. apply shown_click_option.
  - rewrite (list_fmap_alter _ _ id).
    + by rewrite list_alter_id.
    + apply Forall_true. by intros f.
Qed.

Lemma edits_keep_texts (events : list event) (qf : QuestionnaireFrame.t) :
  QuestionnaireFrame.title (edits events qf) = QuestionnaireFrame.title qf
  ∧ QuestionnaireFrame.author (edits events qf) = QuestionnaireFrame.author qf
  ∧ QuestionnaireFrame.introduction (edits events qf)
    = QuestionnaireFrame.introduction qf
  ∧ shown <$> QuestionnaireFrame.question_frames (edits events qf)
    = shown <$> QuestionnaireFrame.question_frames qf.
Proof.
  revert qf. unfold edits.
  induction events as [|ev events IH]; intros qf; [done|].
  cbn [foldl]. destruct (IH (edit ev qf)) as (-> & -> & -> & ->).
  rewrite shown_edit. by destruct ev.
Qed.

(** ** Submitting the form untouched *)

Lemma initial_frame_lines (qs : list QuestionSchema.t) :
  concat (question_lines <$> (initial_frame <$> qs))
  = (λ q, nl +:+ QuestionSchema.question q) <$> qs.
Proof.
  induction qs as [|q qs IH]; [done|].
  rewrite !fmap_cons. cbn [concat]. rewrite IH, question_lines_initial.
  by rewrite (answer_lines_blank q no_selection) by (split; [done|by left]).
Qed.

(** X12: when the human presses submit at once, the run returns the
    title line and, for each question in order, a blank line and the
    question's text: no bullet line, no plus line, no comment block. *)
Theorem X12_untouched_form (kw : ClientQuestionnaireTool.kwargs) (rest : list event) :
  ClientQuestionnaireTool._run kw (PressSubmit :: rest)
  = Returns (Some (join nl
      (QuestionnaireFrame.title_line
         (default "No title" (ClientQuestionnaireTool.kw_title kw))
       :: concat ((λ q, [EmptyString; QuestionSchema.question q])
                    <$> default [] (ClientQuestionnaireTool.kw_questions kw))))).
Proof.
  unfold ClientQuestionnaireTool._run, Questionnaire.get_client_response,
    Questionnaire.show, ClientQuestionnaireTool.questionnaire.
  cbn [Questionnaire.init Questionnaire.title Questionnaire.author
         Questionnaire.introduction Questionnaire.questions].
  rewrite create_widgets_dict.
  cbn [Questionnaire.mainloop Questionnaire.on_client_response
         Questionnaire.client_response].
  do 2 f_equal. unfold QuestionnaireFrame.submit.
  rewrite client_response_lines_eq. unfold comment_lines.
  cbn [QuestionnaireFrame.title QuestionnaireFrame.question_frames
         QuestionnaireFrame.comment truthy].
  rewrite app_nil_r, initial_frame_lines, !join_cons. f_equal.
  apply join_rest_headers.
Qed.

(** ** The questionnaire schema *)

Lemma validate_questions_ok (raws : list question_data) (qs : list QuestionSchema.t) :
  validate_questions raws = Ok qs →
  Forall (λ d, is_Some (qd_question d)) raws
  ∧ initial_frame <$> qs = frame_of <$> raws.
Proof.
  revert qs. induction raws as [|raw raws IH]; intros qs Hv.
  - injection Hv as <-. split; [constructor|done].
  - cbn [validate_questions] in Hv.
    destruct (QuestionSchema.validate raw) as [q|e] eqn:Hq; [|done].
    destruct (validate_questions raws) as [qs'|e] eqn:Hqs; [|done].
    cbn [bind] in Hv. injection Hv as <-.
    destruct (IH qs' eq_refl) as [Hall Hframes].
    unfold QuestionSchema.validate in Hq.
    destruct (qd_question raw) as [text|] eqn:Htext; [|done].
    injection Hq as <-. split.
    + constructor; [rewrite Htext; by eexists|done].
    + rewrite !fmap_cons, Hframes. f_equal.
      unfold initial_frame, frame_of. rewrite Htext. simpl.
      by destruct (qd_options raw).
Qed.

(** X13: a questionnaire the schema accepts had its questions given,
    each with its question entry.  It has the class's defaults where
    title, author or introduction is not given, one question per raw
    question, and its widgets are the ones the raw question dicts give
    when shown directly. *)
Theorem X13_schema_accepted (raw : questionnaire_data) (Q : QuestionnaireSchema.t) :
  QuestionnaireSchema_validate raw = Ok Q →
  QuestionnaireSchema.title Q
  = default "Title of the questionnaire." (qn_title raw)
  ∧ QuestionnaireSchema.author Q
    = default "Name or role of an agent who is the author of the questionnaire."
              (qn_author raw)
  ∧ QuestionnaireSchema.introduction Q
    = default "Short introduction to the questionnaire and instructions for the client."
              (qn_introduction raw)
  ∧ ∃ raws, qn_questions raw = Some raws
            ∧ Forall (λ d, is_Some (qd_question d)) raws
            ∧ length (QuestionnaireSchema.questions Q) = length raws
            ∧ render Q
              = QuestionnaireFrame.create_widgets
                  (QuestionnaireSchema.title Q) (QuestionnaireSchema.author Q)
                  (QuestionnaireSchema.introduction Q) raws.
Proof.
  unfold QuestionnaireSchema_validate. intros HQ.
  destruct (qn_questions raw) as [raws|]; [|done].
  destruct (validate_questions raws) as [qs|e] eqn:Hqs; [|done].
  cbn [bind] in HQ. injection HQ as <-. simpl.
  do 3 (split; [done|]). exists raws. split; [done|].
  apply validate_questions_ok in Hqs as [Hall Hframes].
  split; [done|]. split.
  - by rewrite <- (length_fmap initial_frame), Hframes, length_fmap.
  - rewrite render_ok, create_widgets_raw by done. simpl. by rewrite Hframes.
Qed.

Lemma X13_schema_accepted_witness :
  QuestionnaireSchema_validate
    {| qn_title := None; qn_author := Some "A"; qn_introduction := None;
       qn_questions := Some [ {| qd_question := Some "Color?"; qd_options := None |} ] |}
  = Ok {| QuestionnaireSchema.title := "Title of the questionnaire.";
          QuestionnaireSchema.author := "A";
          QuestionnaireSchema.introduction :=
            "Short introduction to the questionnaire and instructions for the client.";
          QuestionnaireSchema.questions :=
            [ {| QuestionSchema.question := "Color?"; QuestionSchema.options := [] |} ] |}
  ∧ QuestionnaireSchema.title
      {| QuestionnaireSchema.title := "Title of the questionnaire.";
         QuestionnaireSchema.author := "A";
         QuestionnaireSchema.introduction :=
           "Short introduction to the questionnaire and instructions for the client.";
         QuestionnaireSchema.questions :=
           [ {| QuestionSchema.question := "Color?"; QuestionSchema.options := [] |} ] |}
    = "Title of the questionnaire.".
Proof.
  split; [reflexivity|].
  exact (proj1 (X13_schema_accepted
                  {| qn_title := None; qn_author := Some "A"; qn_introduction := None;
                     qn_questions :=
                       Some [ {| qd_question := Some "Color?"; qd_options := None |} ] |}
                  _ eq_refl)).
Defined.

(** ** The shape of every submitted transcript *)

Lemma question_lines_shape (q : QuestionSchema.t) (f : QuestionFrame.t) :
  shown f = shown (initial_frame q) →
  ∃ chosen custom,
    question_lines f
    = (nl +:+ QuestionSchema.question q)
        :: ((λ o, "  * " +:+ o) <$> chosen) ++ custom_lines custom
    ∧ chosen `sublist_of` QuestionSchema.options q.
Proof.
  unfold shown, initial_frame. simpl. intros [= Hlabel Hopts].
  exists (OptionFrame.option <$> filter (λ o, OptionFrame.selected o)
                                    (QuestionFrame.option_frames f)),
         (QuestionFrame.custom_option f).
  split.
  - unfold question_lines, option_lines. rewrite Hlabel. do 2 f_equal.
    by rewrite <- list_fmap_compose.
  - rewrite <- list_fmap_compose in Hopts.
    assert (Hid : OptionFrame.option ∘ OptionFrame.create <$> QuestionSchema.options q
                  = QuestionSchema.options q) by apply list_fmap_id.
    rewrite Hid in Hopts. rewrite <- Hopts.
    apply fmap_sublist, sublist_filter.
Qed.

Lemma fmap_eq_Forall2 {A B C : Type} (f : A → C) (g : B → C)
    (l : list A) (k : list B) :
  f <$> l = g <$> k → Forall2 (λ x y, f x = g y) l k.
Proof.
  revert k. induction l as [|x l IH]; intros [|y k] Heq; simpl in Heq;
    try discriminate.
  - constructor.
  - injection Heq as Hxy Heq. constructor; [done|by apply IH].
Qed.

(** X14: whatever the human did before pressing submit, the returned
    transcript is the title line, then for each question of the
    questionnaire, in order, its header followed by bullet lines for some
    of its options in the order of the option list and at most one plus
    line, then at most one comment block.  No question is left out and
    none is added. *)
Theorem X14_transcript_shape (kw : ClientQuestionnaireTool.kwargs)
    (events : list event) (s : string) :
  ClientQuestionnaireTool._run kw events = Returns (Some s) →
  ∃ blocks comment,
    s = join nl
          (QuestionnaireFrame.title_line
             (default "No title" (ClientQuestionnaireTool.kw_title kw))
           :: concat blocks ++ comment_lines comment)
    ∧ Forall2
        (λ q block,
           ∃ chosen custom,
             block = (nl +:+ QuestionSchema.question q)
                       :: ((λ o, "  * " +:+ o) <$> chosen) ++ custom_lines custom
             ∧ chosen `sublist_of` QuestionSchema.options q)
        (default [] (ClientQuestionnaireTool.kw_questions kw)) blocks.
Proof.
  unfold ClientQuestionnaireTool._run, Questionnaire.get_client_response,
    Questionnaire.show, ClientQuestionnaireTool.questionnaire.
  cbn [Questionnaire.init Questionnaire.title Questionnaire.author
         Questionnaire.introduction Questionnaire.questions].
  rewrite create_widgets_dict.
  destruct (Questionnaire.mainloop _ _ _) as [self'|] eqn:Hloop; [|done].
  intros [= Hs].
  apply mainloop_split in Hloop as (before & rest & _ & [[-> ->]|[-> ->]]);
    [|done].
  cbn [Questionnaire.on_client_response Questionnaire.client_response] in Hs.
  injection Hs as <-.
  match goal with
  | |- context [edits before ?qf0] =>
      destruct (edits_keep_texts before qf0) as (Ht & _ & _ & Hshown);
      set (qf := edits before qf0) in *
  end.
  cbn [QuestionnaireFrame.title QuestionnaireFrame.question_frames] in Ht, Hshown.
  exists (question_lines <$> QuestionnaireFrame.question_frames qf),
         (QuestionnaireFrame.comment qf).
  split.
  - unfold QuestionnaireFrame.submit. by rewrite client_response_lines_eq, Ht.
  - apply Forall2_fmap_r.
    assert (Hall : Forall2 (λ q f, shown f = shown (initial_frame q))
                     (default [] (ClientQuestionnaireTool.kw_questions kw))
                     (QuestionnaireFrame.question_frames qf)).
    { rewrite <- list_fmap_compose in Hshown. symmetry in Hshown.
      apply fmap_eq_Forall2 in Hshown.
      eapply Forall2_impl; [exact Hshown|]. by intros q f <-. }
    eapply Forall2_impl; [exact Hall|].
    intros q f Hf. by apply question_lines_shape.
Qed.

Lemma X14_transcript_shape_witness :
  ClientQuestionnaireTool._run kw_color [ClickOption 0 1; PressSubmit]
  = Returns (Some (join nl [QuestionnaireFrame.title_line "T";
                            nl +:+ "Color?"; "  * Blue"]))
  ∧ ∃ blocks comment,
      join nl [QuestionnaireFrame.title_line "T"; nl +:+ "Color?"; "  * Blue"]
      = join nl (QuestionnaireFrame.title_line "T"
                   :: concat blocks ++ comment_lines comment)
      ∧ length blocks = 1.
Proof.
  split; [vm_compute; reflexivity|].
  destruct (X14_transcript_shape kw_color [ClickOption 0 1; PressSubmit]
              (join nl [QuestionnaireFrame.title_line "T";
                        nl +:+ "Color?"; "  * Blue"]))
    as (blocks & comment & Hs & Hblocks); [vm_compute; reflexivity|].
  exists blocks, comment. split; [exact Hs|].
  apply Forall2_length in Hblocks. simpl in Hblocks. by rewrite <- Hblocks.
Defined.
